(** * Line-highlight selector of the code-block renderer

    A shallow embedding of [calculateLinesToHighlight] (the helper of the
    [Code] component) and the properties of the predicate it returns.

    Modelling conventions.
    - A JavaScript string is a [string]; the pattern only ever looks at
      ASCII characters.
    - The argument [meta] is either [undefined] or a string: [option string].
    - A JavaScript number that holds an integer is an exact [Z]; [NaN] and
      [undefined] are separate constructors of [value].  The runtime holds
      doubles: [parseInt] rounds a numeral past 2^53 and [index + 1] rounds
      past 2^53.  The statements that give the value of the predicate from
      the numbers of a group are therefore made at a [safe_index], where
      [index + 1] is exact; there the exact integers and the doubles give
      the same answers whatever the size of the numerals (section
      "Exact integers and doubles").
    - The regular-expression object carries its [global] flag and its
      [lastIndex], and [exec]/[test] thread it explicitly, as the runtime
      does.
    - An abrupt completion (a thrown [TypeError]) is a constructor of
      [completion]. *)

From Stdlib Require Import ZArith NArith List Bool Ascii String Lia.
From Stdlib Require Import Decimal DecimalString DecimalPos DecimalN.
Import ListNotations.

Local Open Scope string_scope.
Local Open Scope Z_scope.

(* ------------------------------------------------------------------ *)
(** ** Values and completions *)

Inductive value : Type :=
| Undefined
| NaN
| Num (z : Z).

Inductive error : Type :=
| TypeError.

Inductive completion (A : Type) : Type :=
| Normal (a : A)
| Throw (e : error).

Arguments Normal {A} a.
Arguments Throw {A} e.

(** [ToBoolean]: [undefined], [NaN] and [0] are falsy. *)
Definition ToBoolean (v : value) : bool :=
  match v with
  | Undefined => false
  | NaN => false
  | Num z => negb (z =? 0)
  end.

(** [x >= v] for a number [x]: [undefined] converts to [NaN], and a
    comparison with [NaN] is false. *)
Definition js_ge (x : Z) (v : value) : bool :=
  match v with
  | Num z => z <=? x
  | _ => false
  end.

(** [x <= v]. *)
Definition js_le (x : Z) (v : value) : bool :=
  match v with
  | Num z => x <=? z
  | _ => false
  end.

(** [x === v]. *)
Definition js_strict_eq (x : Z) (v : value) : bool :=
  match v with
  | Num z => x =? z
  | _ => false
  end.

(** [ToString] of the argument, as [RegExp.prototype.test] and [exec]
    apply it. *)
Definition ToString (meta : option string) : string :=
  match meta with
  | None => "undefined"
  | Some s => s
  end.

(* ------------------------------------------------------------------ *)
(** ** Strings: [split] and [parseInt] *)

Definition is_digit (c : ascii) : bool :=
  let n := nat_of_ascii c in
  (Nat.leb 48 n && Nat.leb n 57)%bool.

Definition digit_value (c : ascii) : Z :=
  Z.of_nat (nat_of_ascii c) - 48.

(** [s.split(sep)] for a separator of one character.  The result is never
    empty: the empty string splits into one empty string. *)
Fixpoint split (sep : ascii) (s : string) : list string :=
  match s with
  | EmptyString => [EmptyString]
  | String c t =>
      if Ascii.eqb c sep then EmptyString :: split sep t
      else match split sep t with
           | h :: r => String c h :: r
           | [] => [String c EmptyString]
           end
  end.

Definition is_white_space (c : ascii) : bool :=
  let n := nat_of_ascii c in
  (Nat.eqb n 32 || Nat.eqb n 9 || Nat.eqb n 10 || Nat.eqb n 11
   || Nat.eqb n 12 || Nat.eqb n 13)%bool.

Fixpoint trim_start (s : string) : string :=
  match s with
  | String c t => if is_white_space c then trim_start t else s
  | EmptyString => EmptyString
  end.

(** The longest prefix of decimal digits, read left to right with
    accumulator [acc]; [seen] records whether a digit was read. *)
Fixpoint read_digits (s : string) (seen : bool) (acc : Z) : option Z :=
  match s with
  | String c t =>
      if is_digit c then read_digits t true (10 * acc + digit_value c)
      else if seen then Some acc else None
  | EmptyString => if seen then Some acc else None
  end.

(** [parseInt(y, 10)]: leading white space, an optional sign, then the
    longest run of digits; [NaN] when there is no digit. *)
Definition parseInt (y : string) : value :=
  let s := trim_start y in
  let '(sign, body) :=
    match s with
    | String "-"%char t => (-1, t)
    | String "+"%char t => (1, t)
    | _ => (1, s)
    end in
  match read_digits body false 0 with
  | Some n => Num (sign * n)
  | None => NaN
  end.

(* ------------------------------------------------------------------ *)
(** ** The pattern [/{([\d,-]+)}/] *)

(** The character class [[\d,-]]. *)
Definition in_class (c : ascii) : bool :=
  (is_digit c || Ascii.eqb c ","%char || Ascii.eqb c "-"%char)%bool.

(** [[\d,-]+] followed by the rest of the pattern [k], which receives the
    text captured so far and the remaining input.  The quantifier is
    greedy: it first tries to take one more character and falls back to
    stopping here when that fails. *)
Fixpoint class_plus {A : Type} (s acc : string)
    (k : string -> string -> option A) : option A :=
  match s with
  | EmptyString => None
  | String c t =>
      if in_class c then
        let acc' := acc ++ String c EmptyString in
        match class_plus t acc' k with
        | Some r => Some r
        | None => k acc' t
        end
      else None
  end.

(** The closing brace, last element of the pattern. *)
Definition close_brace (captured rest : string) : option string :=
  match rest with
  | String "}"%char _ => Some captured
  | _ => None
  end.

(** The whole pattern anchored at the head of [s]; the result is the text
    of capture group 1. *)
Definition match_here (s : string) : option string :=
  match s with
  | String "{"%char t => class_plus t EmptyString close_brace
  | _ => None
  end.

(** Leftmost match at or after the head of [s], which sits at index [i] of
    the subject: the index of the match and its capture group. *)
Fixpoint scan (s : string) (i : nat) : option (nat * string) :=
  match match_here s with
  | Some g => Some (i, g)
  | None =>
      match s with
      | EmptyString => None
      | String _ t => scan t (S i)
      end
  end.

Fixpoint skip (n : nat) (s : string) : string :=
  match n, s with
  | O, _ => s
  | S n', String _ t => skip n' t
  | S _, EmptyString => EmptyString
  end.

(** The regular-expression object: the pattern is fixed, its mutable part
    is [lastIndex]. *)
Record RegExp : Type := mkRegExp {
  global : bool;
  lastIndex : nat
}.

(** The match array: [index], element 0 (the whole match) and element 1
    (capture group 1). *)
Record MatchArray : Type := mkMatch {
  index : nat;
  whole : string;
  group1 : string
}.

Definition set_lastIndex (R : RegExp) (n : nat) : RegExp :=
  mkRegExp (global R) n.

(** [RegExp.prototype.exec]: a search that starts at [lastIndex] for a
    global expression and at 0 otherwise; only a global expression writes
    [lastIndex] back. *)
Definition RegExp_exec (R : RegExp) (S : string)
  : option MatchArray * RegExp :=
  let start := if global R then lastIndex R else O in
  if Nat.ltb (String.length S) start then
    (None, if global R then set_lastIndex R 0 else R)
  else
    match scan (skip start S) start with
    | None => (None, if global R then set_lastIndex R 0 else R)
    | Some (i, g) =>
        let w := String "{"%char (g ++ "}") in
        (Some (mkMatch i w g),
         if global R then set_lastIndex R (i + String.length w) else R)
    end.

(** [RegExp.prototype.test]: [exec] and a test for [null]. *)
Definition RegExp_test (R : RegExp) (S : string) : bool * RegExp :=
  let '(m, R') := RegExp_exec R S in
  (match m with Some _ => true | None => false end, R').

(* ------------------------------------------------------------------ *)
(** ** [calculateLinesToHighlight] *)

(** The literal [/{([\d,-]+)}/]: no flag, [lastIndex] 0. *)
Definition RegEx_literal : RegExp := mkRegExp false O.

(** [.split(",").map((v) => v.split("-").map((y) => parseInt(y, 10)))] *)
Definition parse_lineNumbers (g : string) : list (list value) :=
  map (fun v => map (fun y => parseInt y) (split "-"%char v))
      (split ","%char g).

(** The callback of [some]: [([start, end]) => end ? lineNumber >= start
    && lineNumber <= end : lineNumber === start].  A missing element of
    the destructured array is [undefined]. *)
Definition range_test (lineNumber : Z) (range : list value) : bool :=
  let start := nth 0 range Undefined in
  let end_ := nth 1 range Undefined in
  if ToBoolean end_
  then (js_ge lineNumber start && js_le lineNumber end_)%bool
  else js_strict_eq lineNumber start.

(** The returned arrow function [(index) => ...], closed over
    [lineNumbers]. *)
Definition highlight_predicate (lineNumbers : list (list value))
    (index : Z) : bool :=
  let lineNumber := index + 1 in
  let inRange := existsb (range_test lineNumber) lineNumbers in
  inRange.

(** The body of the function run on a given expression object; the second
    component is the object as the body leaves it. *)
Definition calculate_with (RegEx : RegExp) (meta : option string)
  : completion (Z -> bool) * RegExp :=
  let '(found, RegEx1) := RegExp_test RegEx (ToString meta) in
  if found then
    let '(m, RegEx2) := RegExp_exec RegEx1 (ToString meta) in
    match m with
    | None => (Throw TypeError, RegEx2)
    | Some arr =>
        let lineNumbers := parse_lineNumbers (group1 arr) in
        (Normal (highlight_predicate lineNumbers), RegEx2)
    end
  else (Normal (fun _ => false), RegEx1).

Definition calculateLinesToHighlight (meta : option string)
  : completion (Z -> bool) :=
  fst (calculate_with RegEx_literal meta).

(** [shouldHighlightLine(i)] as the [Code] component calls it. *)
Definition query (p : completion (Z -> bool)) (i : Z) : completion bool :=
  match p with
  | Normal f => Normal (f i)
  | Throw e => Throw e
  end.

Definition shouldHighlightLine (meta : option string) (i : Z)
  : completion bool :=
  query (calculateLinesToHighlight meta) i.

(** Capture group 1 of the first match in [s], when there is one. *)
Definition first_group (s : string) : option string :=
  match scan s O with
  | Some (_, g) => Some g
  | None => None
  end.

(** A token of the group, tested against a line number: the [some]
    callback applied to the parsed token. *)
Definition token_test (lineNumber : Z) (tok : string) : bool :=
  range_test lineNumber (map (fun y => parseInt y) (split "-"%char tok)).

(** The tokens of a group. *)
Definition tokens (g : string) : list string := split ","%char g.

(** Every character of [s] is in the class [[\d,-]]. *)
Fixpoint all_class (s : string) : bool :=
  match s with
  | EmptyString => true
  | String c t => (in_class c && all_class t)%bool
  end.

(** [c] occurs in [s]. *)
Fixpoint contains (c : ascii) (s : string) : bool :=
  match s with
  | EmptyString => false
  | String d t => (Ascii.eqb d c || contains c t)%bool
  end.

(** A string has a bracket group when some substring is an opening brace,
    a non-empty run of digits, commas and hyphens, and a closing brace. *)
Definition has_bracket_group (s : string) : Prop :=
  exists pre g post,
    s = pre ++ String "{"%char (g ++ String "}"%char post)
    /\ g <> EmptyString /\ all_class g = true.

(* ------------------------------------------------------------------ *)
(** ** The [Code] component *)

(** [array.map((element, index) => ...)]: the callback receives each
    element with its position, counted from [i]. *)
Fixpoint map_from {A B : Type} (f : A -> Z -> B) (i : Z) (l : list A)
  : list B :=
  match l with
  | [] => []
  | a :: t => f a i :: map_from f (i + 1) t
  end.

Definition array_map {A B : Type} (f : A -> Z -> B) (l : list A) : list B :=
  map_from f 0 l.

(** The object literal of the emphasised line. *)
Record Style : Type := mkStyle {
  backgroundColor : string;
  margin : string;
  padding : string;
  borderLeft : string
}.

Definition highlight_style : Style :=
  mkStyle "rgba(201, 167, 255, 0.2)" "0px -0.75rem" " 0px 5px"
          "5px solid rgb(201, 167, 255)".

Section CodeComponent.

(** What the [Highlight] render prop hands over: the token type, and
    [getLineProps] and [getTokenProps] with the types of what they
    return. *)
Variables Token LineProps TokenProps : Type.

(** The keys of the elements, the key that a number given as [key=] makes,
    and the [key] entry of the props that a collaborator returns, when it
    returns one that is not [undefined]. *)
Variable Key : Type.
Variable number_key : Z -> Key.
Variable line_props_key : LineProps -> option Key.
Variable token_props_key : TokenProps -> option Key.

(** The argument of [getLineProps]: [{ line, key: i, style: ... }], where
    [style] is [false] ([None]) or the style object. *)
Record LineInput : Type := mkLineInput {
  input_line : list Token;
  input_key : Z;
  input_style : option Style
}.

(** The argument of [getTokenProps]: [{ token, key }]. *)
Record TokenInput : Type := mkTokenInput {
  input_token : Token;
  token_key : Z
}.

Variable getLineProps : LineInput -> LineProps.
Variable getTokenProps : TokenInput -> TokenProps.

(** One [<div>] of the block: its key, the props spread on it, the number
    shown in its first [<span>] and the token [<span>]s with their keys. *)
Record LineElement : Type := mkLineElement {
  element_key : Key;
  element_props : LineProps;
  element_number : Z;
  element_spans : list (Key * TokenProps)
}.

(** [key={i} {...props}]: the props are spread after [key=], so a key among
    them replaces the one given. *)
Definition spread_key (given : Z) (returned : option Key) : Key :=
  match returned with
  | Some k => k
  | None => number_key given
  end.

(** [shouldHighlightLine(i) && { ... }] *)
Definition and_style (b : bool) : option Style :=
  if b then Some highlight_style else None.

(** [<span key={key} {...getTokenProps({ token, key })} />] *)
Definition token_span (token : Token) (key : Z) : Key * TokenProps :=
  let props := getTokenProps (mkTokenInput token key) in
  (spread_key key (token_props_key props), props).

(** [<div key={i} {...getLineProps({ line, key: i, style: ... })}>] with
    its children. *)
Definition line_element (shouldHighlight : Z -> bool)
    (line : list Token) (i : Z) : LineElement :=
  let props :=
    getLineProps (mkLineInput line i (and_style (shouldHighlight i))) in
  mkLineElement (spread_key i (line_props_key props)) props (i + 1)
                (array_map token_span line).

(** The children of [<pre>]: [tokens.map((line, i) => ...)] under the
    selector built from [metastring]. *)
Definition Code_lines (metastring : option string)
    (tokens : list (list Token)) : completion (list LineElement) :=
  match calculateLinesToHighlight metastring with
  | Throw e => Throw e
  | Normal shouldHighlight =>
      Normal (array_map (line_element shouldHighlight) tokens)
  end.

End CodeComponent.

Arguments mkLineInput {Token} _ _ _.
Arguments mkTokenInput {Token} _ _.
Arguments input_line {Token} _.
Arguments input_key {Token} _.
Arguments input_style {Token} _.
Arguments input_token {Token} _.
Arguments token_key {Token} _.
Arguments mkLineElement {LineProps TokenProps Key} _ _ _ _.
Arguments element_key {LineProps TokenProps Key} _.
Arguments element_props {LineProps TokenProps Key} _.
Arguments element_number {LineProps TokenProps Key} _.
Arguments element_spans {LineProps TokenProps Key} _.
Arguments spread_key {Key} _ _ _.
Arguments token_span {Token TokenProps Key} _ _ _ _ _.
Arguments line_element {Token LineProps TokenProps Key} _ _ _ _ _ _ _ _.
Arguments Code_lines {Token LineProps TokenProps Key} _ _ _ _ _ _ _.

(* ------------------------------------------------------------------ *)
(** ** Safe integers and doubles *)

(** [Number.MAX_SAFE_INTEGER] *)
Definition MAX_SAFE_INTEGER : Z := 2 ^ 53 - 1.

(** A line number that is a safe integer. *)
Definition safe_line (ln : Z) : Prop :=
  - MAX_SAFE_INTEGER <= ln <= MAX_SAFE_INTEGER.

(** An index [i] such that [i] and [i + 1] are safe integers: the
    addition [index + 1] is exact on it. *)
Definition safe_index (i : Z) : Prop :=
  - MAX_SAFE_INTEGER <= i < MAX_SAFE_INTEGER.

(** A value as the runtime holds it: a number is a double, of which only
    the integers and [Infinity] can come out of [parseInt] on digits. *)
Inductive double_value : Type :=
| DUndefined
| DNaN
| DInfinity
| DNum (z : Z).

Section Doubles.

(** The number value of a non-negative integer: how the runtime rounds
    it. *)
Variable to_double : Z -> double_value.

Definition as_double (v : value) : double_value :=
  match v with
  | Undefined => DUndefined
  | NaN => DNaN
  | Num z => to_double z
  end.

Definition double_ToBoolean (v : double_value) : bool :=
  match v with
  | DUndefined => false
  | DNaN => false
  | DInfinity => true
  | DNum z => negb (z =? 0)
  end.

Definition double_ge (x : Z) (v : double_value) : bool :=
  match v with
  | DNum z => z <=? x
  | _ => false
  end.

Definition double_le (x : Z) (v : double_value) : bool :=
  match v with
  | DNum z => x <=? z
  | DInfinity => true
  | _ => false
  end.

Definition double_strict_eq (x : Z) (v : double_value) : bool :=
  match v with
  | DNum z => x =? z
  | _ => false
  end.

(** The callback of [some] on the values the runtime holds. *)
Definition double_range_test (lineNumber : Z) (range : list double_value)
  : bool :=
  let start := nth 0 range DUndefined in
  let end_ := nth 1 range DUndefined in
  if double_ToBoolean end_
  then (double_ge lineNumber start && double_le lineNumber end_)%bool
  else double_strict_eq lineNumber start.

End Doubles.


(* ------------------------------------------------------------------ *)
(** ** The annotation syntax, for stating what a group means *)

(** Every character of [s] is a decimal digit. *)
Fixpoint all_digits (s : string) : bool :=
  match s with
  | EmptyString => true
  | String c t => (is_digit c && all_digits t)%bool
  end.

(** The decimal numeral of [n], without leading zeros. *)
Definition numeral (n : N) : string :=
  NilEmpty.string_of_uint (N.to_uint n).

(** A line or an inclusive range of lines. *)
Inductive LineRange : Type :=
| Single (n : N)
| Range (a b : N).

(** A token as it is written: [N] or [N-M]. *)
Definition write_token (r : LineRange) : string :=
  match r with
  | Single n => numeral n
  | Range a b => numeral a ++ String "-"%char (numeral b)
  end.

(** A group as it is written: the tokens with commas between them. *)
Definition write_group (l : list LineRange) : string :=
  String.concat "," (map write_token l).

(** The lines a token names. *)
Definition names_line (ln : Z) (r : LineRange) : bool :=
  match r with
  | Single n => ln =? Z.of_N n
  | Range a b => ((Z.of_N a <=? ln) && (ln <=? Z.of_N b))%bool
  end.

(** The right bound of a range is a line number, counted from 1. *)
Definition right_bound_positive (r : LineRange) : Prop :=
  match r with
  | Single _ => True
  | Range _ b => b <> 0%N
  end.

(** The numbers a group holds: every part of every token that parses. *)
Definition written_numbers (g : string) : list Z :=
  flat_map
    (fun tok =>
       flat_map
         (fun part =>
            match parseInt part with
            | Num n => [n]
            | _ => []
            end)
         (split "-"%char tok))
    (tokens g).

(** *** Readings of two properties that the function does not meet *)

(** The reading of the range property that lets nothing else in the group
    interfere: just outside a range the predicate is false whatever the
    other tokens are. *)
Definition range_boundary_unconditional : Prop :=
  forall (meta : option string) (g tok a b : string) (s e : Z),
    first_group (ToString meta) = Some g ->
    In tok (tokens g) ->
    split "-"%char tok = [a; b] ->
    parseInt a = Num s -> parseInt b = Num e -> s <= e ->
    (forall n, s <= n <= e -> shouldHighlightLine meta (n - 1) = Normal true)
    /\ shouldHighlightLine meta ((s - 1) - 1) = Normal false
    /\ shouldHighlightLine meta ((e + 1) - 1) = Normal false.

(** The reading under which any part that fails to parse silences its
    token: the predicate would be that of the group without the token. *)
Definition unparsed_part_never_matches : Prop :=
  forall (meta : option string) (g tok part : string) (l1 l2 : list string),
    first_group (ToString meta) = Some g ->
    tokens g = (l1 ++ tok :: l2)%list ->
    In part (split "-"%char tok) -> parseInt part = NaN ->
    forall i, 0 <= i ->
      token_test (i + 1) tok = false
      /\ shouldHighlightLine meta i
         = Normal (existsb (token_test (i + 1)) (l1 ++ l2)%list).

(* ------------------------------------------------------------------ *)
(** ** Facts about strings *)

Lemma append_assoc (a b c : string) : (a ++ b) ++ c = a ++ (b ++ c).
Proof.
  induction a as [|x a IH]; simpl; [reflexivity | now rewrite IH].
Qed.

Lemma append_snoc (acc : string) (c : ascii) (g : string) :
  (acc ++ String c EmptyString) ++ g = acc ++ String c g.
Proof. now rewrite append_assoc. Qed.

(* ------------------------------------------------------------------ *)
(** ** Facts about the pattern *)

Section Pattern.

(** The greedy quantifier on a run of class characters closed by a brace
    captures the whole run. *)
Lemma class_plus_complete (g post acc : string) :
  g <> EmptyString -> all_class g = true ->
  class_plus (g ++ String "}"%char post) acc close_brace = Some (acc ++ g).
Proof.
  revert acc.
  induction g as [|c g IH]; intros acc Hne Hall; [congruence|].
  simpl in Hall. apply andb_true_iff in Hall as [Hc Hg].
  simpl. rewrite Hc.
  destruct g as [|d g'].
  - reflexivity.
  - rewrite IH by (congruence || assumption).
    now rewrite append_snoc.
Qed.

(** Whatever the quantifier captures is a non-empty run of class
    characters that a closing brace follows. *)
Lemma class_plus_sound (s acc r : string) :
  class_plus s acc close_brace = Some r ->
  exists g post,
    r = acc ++ g /\ s = g ++ String "}"%char post
    /\ g <> EmptyString /\ all_class g = true.
Proof.
  revert acc r.
  induction s as [|c t IH]; intros acc r H; simpl in H; [discriminate|].
  destruct (in_class c) eqn:Hc; [|discriminate].
  destruct (class_plus t (acc ++ String c EmptyString) close_brace)
    as [r'|] eqn:Hrec.
  - injection H as <-.
    destruct (IH _ _ Hrec) as (g & post & Hr & Ht & Hne & Hall).
    exists (String c g), post. subst. rewrite append_snoc.
    repeat split; simpl; try congruence. now rewrite Hc.
  - unfold close_brace in H.
    destruct t as [|d post]; [discriminate|].
    destruct (Ascii.eqb_spec d "}"%char) as [->|Hd].
    + injection H as <-.
      exists (String c EmptyString), post.
      repeat split; simpl; try congruence. now rewrite Hc.
    + exfalso. revert H.
      destruct d as [[] [] [] [] [] [] [] []]; try discriminate.
      now contradiction Hd.
Qed.

(** Text after the input that a match consumed does not change it. *)
Lemma class_plus_extend (s acc r rest : string) :
  class_plus s acc close_brace = Some r ->
  class_plus (s ++ rest) acc close_brace = Some r.
Proof.
  revert acc r.
  induction s as [|c t IH]; intros acc r H; simpl in H; [discriminate|].
  simpl. destruct (in_class c) eqn:Hc; [|discriminate].
  destruct (class_plus t (acc ++ String c EmptyString) close_brace)
    as [r'|] eqn:Hrec.
  - now rewrite (IH _ _ Hrec).
  - destruct t as [|d post]; [discriminate|].
    simpl. destruct (in_class d) eqn:Hd.
    + exfalso. revert H Hd. unfold close_brace.
      destruct d as [[] [] [] [] [] [] [] []]; try discriminate.
    + exact H.
Qed.

(** An opening brace stops the quantifier: what follows it is not read. *)
Lemma class_plus_cut (u w acc : string) :
  class_plus (u ++ String "{"%char w) acc close_brace
  = class_plus u acc close_brace.
Proof.
  revert acc.
  induction u as [|c t IH]; intros acc; simpl.
  - reflexivity.
  - destruct (in_class c); [|reflexivity].
    rewrite IH.
    destruct (class_plus t (acc ++ String c EmptyString) close_brace);
      [reflexivity|].
    destruct t; reflexivity.
Qed.

Lemma match_here_group (g post : string) :
  g <> EmptyString -> all_class g = true ->
  match_here (String "{"%char (g ++ String "}"%char post)) = Some g.
Proof.
  intros Hne Hall. simpl.
  now rewrite class_plus_complete.
Qed.

Lemma match_here_sound (s r : string) :
  match_here s = Some r ->
  exists post,
    s = String "{"%char (r ++ String "}"%char post)
    /\ r <> EmptyString /\ all_class r = true.
Proof.
  unfold match_here. intros H.
  destruct s as [|c t]; [discriminate|].
  destruct (Ascii.eqb_spec c "{"%char) as [->|Hc].
  - destruct (class_plus_sound _ _ _ H) as (g & post & -> & -> & Hne & Hall).
    exists post. simpl. auto.
  - exfalso. revert H.
    destruct c as [[] [] [] [] [] [] [] []]; try discriminate.
    now contradiction Hc.
Qed.

Lemma match_here_extend (s r rest : string) :
  match_here s = Some r -> match_here (s ++ rest) = Some r.
Proof.
  unfold match_here.
  destruct s as [|c t]; [discriminate|].
  simpl.
  destruct c as [[] [] [] [] [] [] [] []]; try discriminate.
  apply class_plus_extend.
Qed.

Lemma match_here_cut (c : ascii) (u w : string) :
  match_here (String c u ++ String "{"%char w) = match_here (String c u).
Proof.
  simpl.
  destruct c as [[] [] [] [] [] [] [] []]; try reflexivity.
  apply class_plus_cut.
Qed.

End Pattern.

(* ------------------------------------------------------------------ *)
(** ** Facts about the search *)

Section Scanning.

Lemma scan_eq (s : string) (i : nat) :
  scan s i
  = match match_here s with
    | Some g => Some (i, g)
    | None =>
        match s with
        | EmptyString => None
        | String _ t => scan t (S i)
        end
    end.
Proof. destruct s; reflexivity. Qed.

Lemma append_cons (c : ascii) (u w : string) :
  String c (u ++ w) = String c u ++ w.
Proof. reflexivity. Qed.

Lemma scan_sound (s : string) (i j : nat) (g : string) :
  scan s i = Some (j, g) ->
  exists pre post,
    s = pre ++ String "{"%char (g ++ String "}"%char post)
    /\ j = (i + String.length pre)%nat
    /\ g <> EmptyString /\ all_class g = true
    /\ scan pre i = None.
Proof.
  revert i.
  induction s as [|c t IH]; intros i H.
  - discriminate.
  - rewrite scan_eq in H.
    destruct (match_here (String c t)) as [r|] eqn:Hm.
    + injection H as <- <-.
      destruct (match_here_sound _ _ Hm) as (post & Hs & Hne & Hall).
      exists EmptyString, post.
      repeat split; auto.
    + destruct (IH _ H) as (pre & post & -> & -> & Hne & Hall & Hpre).
      exists (String c pre), post.
      split; [reflexivity|].
      split; [simpl String.length; lia|].
      split; [exact Hne|]. split; [exact Hall|].
      rewrite append_cons, match_here_cut in Hm.
      rewrite scan_eq, Hm. exact Hpre.
Qed.

(** A prefix without a match is passed over: the search resumes at the
    brace that follows it. *)
Lemma scan_skip_prefix (pre w : string) (i : nat) :
  scan pre i = None ->
  scan (pre ++ String "{"%char w) i
  = scan (String "{"%char w) (i + String.length pre)%nat.
Proof.
  revert i.
  induction pre as [|c t IH]; intros i H.
  - simpl append. simpl String.length. now rewrite Nat.add_0_r.
  - rewrite scan_eq in H.
    destruct (match_here (String c t)) as [r|] eqn:Hm; [discriminate|].
    rewrite scan_eq, match_here_cut, Hm.
    cbn [append]. rewrite (IH _ H).
    simpl String.length. f_equal. lia.
Qed.

Lemma scan_complete (pre g post : string) (i : nat) :
  scan pre i = None -> g <> EmptyString -> all_class g = true ->
  scan (pre ++ String "{"%char (g ++ String "}"%char post)) i
  = Some ((i + String.length pre)%nat, g).
Proof.
  intros Hpre Hne Hall.
  rewrite (scan_skip_prefix _ _ _ Hpre), scan_eq.
  now rewrite match_here_group.
Qed.

(** A match is found whether or not an earlier prefix is free of one. *)
Lemma scan_some_of_group (pre g post : string) (i : nat) :
  g <> EmptyString -> all_class g = true ->
  scan (pre ++ String "{"%char (g ++ String "}"%char post)) i <> None.
Proof.
  intros Hne Hall. revert i.
  induction pre as [|c t IH]; intros i.
  - rewrite (scan_complete EmptyString g post i);
      [discriminate | reflexivity | auto | auto].
  - rewrite scan_eq.
    destruct (match_here _); [discriminate | apply IH].
Qed.

(** Text after the first match does not change it. *)
Lemma scan_extend (s rest : string) (i j : nat) (g : string) :
  scan s i = Some (j, g) -> scan (s ++ rest) i = Some (j, g).
Proof.
  revert i.
  induction s as [|c t IH]; intros i H.
  - discriminate.
  - rewrite scan_eq in H. rewrite scan_eq.
    destruct (match_here (String c t)) as [r|] eqn:Hm.
    + now rewrite (match_here_extend _ _ rest Hm).
    + destruct (scan_sound _ _ _ _ H) as (pre & post & Ht & _ & _ & _ & _).
      assert (Hcut : match_here (String c t ++ rest) = None).
      { rewrite Ht, append_cons, append_assoc. simpl (String "{"%char _ ++ rest).
        rewrite match_here_cut.
        rewrite Ht, append_cons, match_here_cut in Hm. exact Hm. }
      rewrite Hcut. cbn [append]. apply IH. exact H.
Qed.

Lemma first_group_sound (s g : string) :
  first_group s = Some g ->
  exists pre post,
    s = pre ++ String "{"%char (g ++ String "}"%char post)
    /\ g <> EmptyString /\ all_class g = true
    /\ first_group pre = None.
Proof.
  unfold first_group. intros H.
  destruct (scan s 0) as [[j r]|] eqn:Hs; [|discriminate].
  injection H as ->.
  destruct (scan_sound _ _ _ _ Hs) as (pre & post & -> & _ & Hne & Hall & Hpre).
  exists pre, post. rewrite Hpre. auto.
Qed.

Lemma first_group_complete (pre g post : string) :
  first_group pre = None -> g <> EmptyString -> all_class g = true ->
  first_group (pre ++ String "{"%char (g ++ String "}"%char post)) = Some g.
Proof.
  unfold first_group. intros Hpre Hne Hall.
  destruct (scan pre 0) as [[j r]|] eqn:Hs; [discriminate|].
  now rewrite (scan_complete _ _ _ _ Hs Hne Hall).
Qed.

Lemma first_group_extend (s rest g : string) :
  first_group s = Some g -> first_group (s ++ rest) = Some g.
Proof.
  unfold first_group. intros H.
  destruct (scan s 0) as [[j r]|] eqn:Hs; [|discriminate].
  injection H as ->.
  now rewrite (scan_extend _ rest _ _ _ Hs).
Qed.

(** The search fails exactly on the strings without a bracket group. *)
Lemma first_group_none_iff (s : string) :
  first_group s = None <-> ~ has_bracket_group s.
Proof.
  split.
  - intros H (pre & g & post & -> & Hne & Hall).
    unfold first_group in H.
    pose proof (scan_some_of_group pre g post 0 Hne Hall) as Hs.
    destruct (scan _ 0) as [[j r]|]; [discriminate | congruence].
  - intros H. destruct (first_group s) as [g|] eqn:Hg; [|reflexivity].
    exfalso. apply H.
    destruct (first_group_sound _ _ Hg) as (pre & post & Hs & Hne & Hall & _).
    now exists pre, g, post.
Qed.

End Scanning.

(* ------------------------------------------------------------------ *)
(** ** The function in terms of the first group *)

Section Unfolding.

(** An expression without the global flag searches from the start and is
    left as it was. *)
Lemma RegExp_exec_not_global (R : RegExp) (S : string) :
  global R = false ->
  RegExp_exec R S
  = (match scan S 0 with
     | Some (i, g) => Some (mkMatch i (String "{"%char (g ++ "}")) g)
     | None => None
     end, R).
Proof.
  intros HR. unfold RegExp_exec. rewrite HR. simpl.
  destruct (scan S 0) as [[i g]|]; reflexivity.
Qed.

Lemma calculate_with_not_global (R : RegExp) (meta : option string) :
  global R = false ->
  calculate_with R meta
  = (match first_group (ToString meta) with
     | Some g => Normal (highlight_predicate (parse_lineNumbers g))
     | None => Normal (fun _ => false)
     end, R).
Proof.
  intros HR. unfold calculate_with, RegExp_test, first_group.
  rewrite (RegExp_exec_not_global R _ HR).
  destruct (scan (ToString meta) 0) as [[i g]|] eqn:Hs; [|reflexivity].
  rewrite (RegExp_exec_not_global R _ HR), Hs. reflexivity.
Qed.

Lemma calculateLinesToHighlight_eq (meta : option string) :
  calculateLinesToHighlight meta
  = match first_group (ToString meta) with
    | Some g => Normal (highlight_predicate (parse_lineNumbers g))
    | None => Normal (fun _ => false)
    end.
Proof.
  unfold calculateLinesToHighlight.
  now rewrite calculate_with_not_global.
Qed.

Lemma existsb_map {A B : Type} (f : B -> bool) (h : A -> B) (l : list A) :
  existsb f (map h l) = existsb (fun a => f (h a)) l.
Proof.
  induction l as [|a l IH]; simpl; [reflexivity | now rewrite IH].
Qed.

(** The predicate is the disjunction of the token tests. *)
Lemma shouldHighlightLine_tokens (meta : option string) (g : string) (i : Z) :
  first_group (ToString meta) = Some g ->
  shouldHighlightLine meta i
  = Normal (existsb (token_test (i + 1)) (tokens g)).
Proof.
  intros Hg. unfold shouldHighlightLine.
  rewrite calculateLinesToHighlight_eq, Hg. simpl.
  unfold highlight_predicate, parse_lineNumbers, tokens.
  now rewrite existsb_map.
Qed.

Lemma shouldHighlightLine_none (meta : option string) (i : Z) :
  first_group (ToString meta) = None ->
  shouldHighlightLine meta i = Normal false.
Proof.
  intros Hg. unfold shouldHighlightLine.
  now rewrite calculateLinesToHighlight_eq, Hg.
Qed.

Lemma existsb_without {A : Type} (f : A -> bool) (l1 l2 : list A) (a : A) :
  f a = false -> existsb f (l1 ++ a :: l2) = existsb f (l1 ++ l2).
Proof.
  intros Ha. rewrite !existsb_app. simpl. now rewrite Ha.
Qed.

End Unfolding.

(* ------------------------------------------------------------------ *)
(** ** Facts about [split], [parseInt] and the token test *)

Section Tokens.

(** A string without the separator is its own single part. *)
Lemma split_no_sep (sep : ascii) (s : string) :
  contains sep s = false -> split sep s = [s].
Proof.
  induction s as [|c t IH]; simpl; intros H; [reflexivity|].
  apply orb_false_iff in H as [Hc Ht].
  now rewrite Hc, (IH Ht).
Qed.

(** No part holds the separator. *)
Lemma split_parts_no_sep (sep : ascii) (s a : string) :
  In a (split sep s) -> contains sep a = false.
Proof.
  revert a.
  induction s as [|c t IH]; simpl; intros a H.
  - destruct H as [<-|[]]. reflexivity.
  - destruct (Ascii.eqb c sep) eqn:Hc.
    + destruct H as [<-|H]; [reflexivity | now apply IH].
    + destruct (split sep t) as [|h r] eqn:Hs.
      * destruct H as [<-|[]]. simpl. now rewrite Hc.
      * destruct H as [<-|H].
        -- simpl. rewrite Hc. apply IH. now left.
        -- apply IH. now right.
Qed.

Lemma contains_trim_start (c : ascii) (s : string) :
  contains c s = false -> contains c (trim_start s) = false.
Proof.
  induction s as [|d t IH]; simpl; intros H; [reflexivity|].
  apply orb_false_iff in H as [Hd Ht].
  destruct (is_white_space d); [now apply IH|].
  simpl. now rewrite Hd, Ht.
Qed.

Lemma digit_value_nonneg (c : ascii) : is_digit c = true -> 0 <= digit_value c.
Proof.
  unfold is_digit, digit_value. intros H.
  apply andb_true_iff in H as [H _]. apply Nat.leb_le in H. lia.
Qed.

Lemma read_digits_nonneg (s : string) (seen : bool) (acc n : Z) :
  0 <= acc -> read_digits s seen acc = Some n -> 0 <= n.
Proof.
  revert seen acc.
  induction s as [|c t IH]; simpl; intros seen acc Hacc H.
  - destruct seen; [injection H as <-; exact Hacc | discriminate].
  - destruct (is_digit c) eqn:Hc.
    + apply (IH true (10 * acc + digit_value c)); [|exact H].
      pose proof (digit_value_nonneg c Hc). lia.
    + destruct seen; [injection H as <-; exact Hacc | discriminate].
Qed.

(** Without a minus sign [parseInt] gives no negative number. *)
Lemma parseInt_nonneg (a : string) (n : Z) :
  contains "-"%char a = false -> parseInt a = Num n -> 0 <= n.
Proof.
  intros Ha. unfold parseInt.
  pose proof (contains_trim_start _ _ Ha) as Ht.
  destruct (trim_start a) as [|c t] eqn:Hs; [discriminate|].
  simpl in Ht. apply orb_false_iff in Ht as [Hc _].
  assert (Hbody :
    forall body, match read_digits body false 0 with
                 | Some m => Num (1 * m)
                 | None => NaN
                 end = Num n -> 0 <= n).
  { intros body H.
    destruct (read_digits body false 0) as [m|] eqn:Hr; [|discriminate].
    injection H as <-.
    pose proof (read_digits_nonneg _ _ _ _ (Z.le_refl 0) Hr).
    destruct m; lia. }
  destruct c as [[] [] [] [] [] [] [] []]; try discriminate Hc;
    apply Hbody.
Qed.

(** A bare token matches the one line it names. *)
Lemma token_test_bare (tok : string) (n ln : Z) :
  contains "-"%char tok = false -> parseInt tok = Num n ->
  token_test ln tok = (ln =? n).
Proof.
  intros Hc Hp. unfold token_test.
  rewrite (split_no_sep _ _ Hc). simpl. rewrite Hp. reflexivity.
Qed.

(** A token of two parts that both parse: a range when the right bound is
    truthy, the single line [s] when it is 0. *)
Lemma token_test_pair (tok a b : string) (s e ln : Z) :
  split "-"%char tok = [a; b] -> parseInt a = Num s -> parseInt b = Num e ->
  token_test ln tok
  = if e =? 0 then ln =? s else ((s <=? ln) && (ln <=? e))%bool.
Proof.
  intros Hs Ha Hb. unfold token_test.
  rewrite Hs. simpl. rewrite Ha, Hb.
  unfold range_test. simpl.
  destruct (e =? 0); reflexivity.
Qed.

(** A token whose first part does not parse matches no line. *)
Lemma token_test_nan_start (tok a : string) (rest : list string) (ln : Z) :
  split "-"%char tok = a :: rest -> parseInt a = NaN ->
  token_test ln tok = false.
Proof.
  intros Hs Ha. unfold token_test.
  rewrite Hs. simpl. rewrite Ha.
  unfold range_test. simpl.
  destruct (ToBoolean _); reflexivity.
Qed.

(** A token [N-] whose right part does not parse matches line [N]. *)
Lemma token_test_nan_end (tok a b : string) (n ln : Z) :
  split "-"%char tok = [a; b] -> parseInt a = Num n -> parseInt b = NaN ->
  token_test ln tok = (ln =? n).
Proof.
  intros Hs Ha Hb. unfold token_test.
  rewrite Hs. simpl. rewrite Ha, Hb. reflexivity.
Qed.

(** The parts of a two-part token hold no hyphen. *)
Lemma pair_parts_no_hyphen (tok a b : string) :
  split "-"%char tok = [a; b] ->
  contains "-"%char a = false /\ contains "-"%char b = false.
Proof.
  intros Hs.
  split; apply (split_parts_no_sep _ tok); rewrite Hs; simpl; auto.
Qed.

(** An inclusive range with ordered bounds holds exactly the lines between
    its bounds. *)
Lemma token_test_range (tok a b : string) (s e ln : Z) :
  split "-"%char tok = [a; b] -> parseInt a = Num s -> parseInt b = Num e ->
  s <= e ->
  token_test ln tok = ((s <=? ln) && (ln <=? e))%bool.
Proof.
  intros Hs Ha Hb Hle.
  rewrite (token_test_pair _ _ _ _ _ _ Hs Ha Hb).
  destruct (Z.eqb_spec e 0) as [->|He]; [|reflexivity].
  destruct (pair_parts_no_hyphen _ _ _ Hs) as [Hca _].
  pose proof (parseInt_nonneg _ _ Hca Ha) as Hs0.
  assert (s = 0) as -> by lia.
  destruct (Z.eqb_spec ln 0) as [->|Hn]; [reflexivity|].
  destruct (Z.leb_spec 0 ln), (Z.leb_spec ln 0); simpl; try reflexivity; lia.
Qed.

Lemma existsb_false_iff {A : Type} (f : A -> bool) (l : list A) :
  existsb f l = false <-> forall a, In a l -> f a = false.
Proof.
  induction l as [|x l IH]; simpl.
  - split; [intros _ a [] | reflexivity].
  - rewrite orb_false_iff, IH. split.
    + intros [Hx Hl] a [<-|Ha]; auto.
    + intros H. split; [apply H; now left | intros a Ha; apply H; now right].
Qed.

Lemma existsb_true_of_in {A : Type} (f : A -> bool) (l : list A) (a : A) :
  In a l -> f a = true -> existsb f l = true.
Proof.
  intros Hin Ha. apply existsb_exists. now exists a.
Qed.

End Tokens.

(* ------------------------------------------------------------------ *)
(** ** Ranges and bare tokens *)

(** C1, as stated, fails: in ["{1-3,4}"] the range [1-3] has [end + 1 = 4],
    and line 4 is highlighted by the neighbouring token [4]. *)
Lemma range_boundary_unconditional_fails : ~ range_boundary_unconditional.
Proof.
  intros H.
  destruct (H (Some "{1-3,4}") "1-3,4" "1-3" "1" "3" 1 3)
    as (_ & _ & Habove); try reflexivity.
  - simpl. auto.
  - lia.
  - vm_compute in Habove. discriminate.
Qed.

(** C1 (amended): when the first bracket group holds a range token
    [start-end] with [start <= end], the predicate is true at [n - 1] for
    every [n] with [start <= n <= end]; at [n = start - 1] and
    [n = end + 1] it is false provided no other token of the group matches
    line [n].  The degenerate range ["{3-3}"] is true at index 2 only.
    The indices are safe indices, where [index + 1] is exact. *)
Theorem range_token_inclusive
    (meta : option string) (g tok a b : string) (s e : Z) :
  first_group (ToString meta) = Some g ->
  In tok (tokens g) ->
  split "-"%char tok = [a; b] ->
  parseInt a = Num s -> parseInt b = Num e -> s <= e ->
  (forall n, s <= n <= e -> safe_index (n - 1) ->
             shouldHighlightLine meta (n - 1) = Normal true)
  /\ (forall n, n = s - 1 \/ n = e + 1 -> safe_index (n - 1) ->
        (forall t, In t (tokens g) -> t <> tok -> token_test n t = false) ->
        shouldHighlightLine meta (n - 1) = Normal false)
  /\ (forall i, safe_index i ->
                shouldHighlightLine (Some "{3-3}") i = Normal (i =? 2)).
Proof.
  intros Hg Hin Hs Ha Hb Hle.
  assert (Htok : forall ln,
            token_test ln tok = ((s <=? ln) && (ln <=? e))%bool)
    by (intros ln; now apply (token_test_range tok a b)).
  split; [|split].
  - intros n Hn _.
    rewrite (shouldHighlightLine_tokens _ _ _ Hg). f_equal.
    replace (n - 1 + 1) with n by lia.
    apply (existsb_true_of_in _ _ tok Hin).
    rewrite Htok. apply andb_true_iff. split; apply Z.leb_le; lia.
  - intros n Hn _ Hothers.
    rewrite (shouldHighlightLine_tokens _ _ _ Hg). f_equal.
    replace (n - 1 + 1) with n by lia.
    apply existsb_false_iff. intros t Ht.
    destruct (string_dec t tok) as [->|Hne]; [|now apply Hothers].
    rewrite Htok. apply andb_false_iff.
    destruct Hn as [->| ->]; [left | right]; apply Z.leb_gt; lia.
  - intros i _.
    rewrite (shouldHighlightLine_tokens (Some "{3-3}") "3-3" _ eq_refl).
    f_equal.
    unfold tokens. simpl existsb.
    rewrite (token_test_range "3-3" "3" "3" 3 3) by (reflexivity || lia).
    rewrite orb_false_r.
    destruct (Z.eqb_spec i 2) as [->|Hi]; [reflexivity|].
    apply andb_false_iff.
    destruct (Z.leb_spec 3 (i + 1)); [right; apply Z.leb_gt; lia | now left].
Qed.

Lemma range_token_inclusive_witness :
  first_group "{2,4-6,9}" = Some "2,4-6,9"
  /\ shouldHighlightLine (Some "{2,4-6,9}") (5 - 1) = Normal true
  /\ shouldHighlightLine (Some "{2,4-6,9}") (7 - 1) = Normal false.
Proof.
  split; [reflexivity|].
  destruct (range_token_inclusive (Some "{2,4-6,9}") "2,4-6,9" "4-6" "4" "6"
              4 6 eq_refl (or_intror (or_introl eq_refl))
              eq_refl eq_refl eq_refl ltac:(lia))
    as (Hin & Hout & _).
  split.
  - apply Hin; [lia | unfold safe_index, MAX_SAFE_INTEGER; lia].
  - apply Hout;
      [right; reflexivity | unfold safe_index, MAX_SAFE_INTEGER; lia |].
    intros t [<-|[<-|[<-|[]]]] _; reflexivity.
Defined.

(** C2: every line number [n] listed as a bare, hyphen-free token of the
    first bracket group is highlighted at index [n - 1]; the predicate adds
    one to the index once, so a group made of that token alone is true
    exactly where [index + 1 = n].  The indices are safe indices, where
    [index + 1] is exact. *)
Theorem bare_token_highlights
    (meta : option string) (g tok : string) (n : Z) :
  first_group (ToString meta) = Some g ->
  In tok (tokens g) ->
  contains "-"%char tok = false -> parseInt tok = Num n ->
  (safe_index (n - 1) -> shouldHighlightLine meta (n - 1) = Normal true)
  /\ (tokens g = [tok] ->
      forall i, safe_index i ->
                shouldHighlightLine meta i = Normal (i + 1 =? n)).
Proof.
  intros Hg Hin Hc Hp. split.
  - intros _.
    rewrite (shouldHighlightLine_tokens _ _ _ Hg). f_equal.
    apply (existsb_true_of_in _ _ tok Hin).
    rewrite (token_test_bare _ _ _ Hc Hp). apply Z.eqb_eq. lia.
  - intros Hone i _.
    rewrite (shouldHighlightLine_tokens _ _ _ Hg), Hone. f_equal.
    simpl. rewrite (token_test_bare _ _ _ Hc Hp). apply orb_false_r.
Qed.

Lemma bare_token_highlights_witness :
  parseInt "4" = Num 4
  /\ shouldHighlightLine (Some "jsx {1,4}") (4 - 1) = Normal true.
Proof.
  split; [reflexivity|].
  apply (proj1 (bare_token_highlights (Some "jsx {1,4}") "1,4" "4" 4 eq_refl
                  (or_intror (or_introl eq_refl)) eq_refl eq_refl)).
  unfold safe_index, MAX_SAFE_INTEGER. lia.
Defined.

(* ------------------------------------------------------------------ *)
(** ** No annotation *)

(** C3: for an absent or empty meta string, and for one without a bracket
    group, the function completes normally and its predicate is false at
    every index. *)
Theorem no_annotation_highlights_nothing (meta : option string) :
  meta = None \/ meta = Some EmptyString
  \/ ~ has_bracket_group (ToString meta) ->
  (exists p, calculateLinesToHighlight meta = Normal p)
  /\ forall i, shouldHighlightLine meta i = Normal false.
Proof.
  intros H.
  assert (Hg : first_group (ToString meta) = None).
  { destruct H as [->|[->|H]]; [reflexivity | reflexivity |].
    now apply first_group_none_iff. }
  split.
  - rewrite calculateLinesToHighlight_eq, Hg. eauto.
  - intros i. now apply shouldHighlightLine_none.
Qed.

Lemma no_annotation_highlights_nothing_witness :
  ~ has_bracket_group "jsx"
  /\ shouldHighlightLine (Some "jsx") 0 = Normal false.
Proof.
  assert (H : ~ has_bracket_group (ToString (Some "jsx")))
    by (apply first_group_none_iff; reflexivity).
  split; [exact H|].
  exact (proj2 (no_annotation_highlights_nothing (Some "jsx")
                  (or_intror (or_intror H))) 0).
Defined.

(* ------------------------------------------------------------------ *)
(** ** Several tokens, several groups *)

Lemma split_all_class (sep : ascii) (s a : string) :
  all_class s = true -> In a (split sep s) -> all_class a = true.
Proof.
  revert a.
  induction s as [|c t IH]; simpl; intros a Hall H.
  - destruct H as [<-|[]]. reflexivity.
  - apply andb_true_iff in Hall as [Hc Ht].
    destruct (Ascii.eqb c sep).
    + destruct H as [<-|H]; [reflexivity | now apply IH].
    + destruct (split sep t) as [|h r] eqn:Hs.
      * destruct H as [<-|[]]. simpl. now rewrite Hc.
      * destruct H as [<-|H].
        -- simpl. rewrite Hc. apply IH; [exact Ht | now left].
        -- apply IH; [exact Ht | now right].
Qed.

(** A group that holds one token. *)
Lemma first_group_braces (g : string) :
  g <> EmptyString -> all_class g = true ->
  first_group (String "{"%char (g ++ "}")) = Some g.
Proof.
  intros Hne Hall.
  exact (first_group_complete EmptyString g EmptyString eq_refl Hne Hall).
Qed.

(** C4: the tokens of the group combine by disjunction: the predicate is
    true at index [i] exactly when some token matches line [i + 1], and it
    is the disjunction of the predicates of the one-token groups.  For
    ["{2,5}"] it is true at 1 and 4 and false at 2; for ["{2,4-6,9}"] it is
    true at 1, 3, 4, 5 and 8 among the indices 0 to 10. *)
Theorem tokens_combine_by_or (meta : option string) (g : string) :
  first_group (ToString meta) = Some g ->
  (forall i, shouldHighlightLine meta i
             = Normal (existsb (token_test (i + 1)) (tokens g)))
  /\ (forall i, shouldHighlightLine meta i = Normal true
                <-> exists tok, In tok (tokens g)
                                /\ token_test (i + 1) tok = true)
  /\ (forall tok i, In tok (tokens g) -> tok <> EmptyString ->
        shouldHighlightLine (Some (String "{"%char (tok ++ "}"))) i
        = Normal (token_test (i + 1) tok))
  /\ map (shouldHighlightLine (Some "{2,5}")) [1; 4; 2]
     = [Normal true; Normal true; Normal false]
  /\ map (shouldHighlightLine (Some "{2,4-6,9}"))
         [0; 1; 2; 3; 4; 5; 6; 7; 8; 9; 10]
     = map Normal [false; true; false; true; true; true;
                   false; false; true; false; false].
Proof.
  intros Hg.
  split; [|split; [|split; [|split]]].
  - intros i. now apply shouldHighlightLine_tokens.
  - intros i. rewrite (shouldHighlightLine_tokens _ _ _ Hg). split.
    + intros H. injection H as H. apply existsb_exists in H. exact H.
    + intros H. f_equal. now apply existsb_exists.
  - intros tok i Hin Hne.
    destruct (first_group_sound _ _ Hg) as (pre & post & _ & _ & Hall & _).
    pose proof (split_all_class _ _ _ Hall Hin) as Htok.
    pose proof (split_parts_no_sep _ _ _ Hin) as Hcomma.
    rewrite (shouldHighlightLine_tokens _ tok);
      [|now apply first_group_braces].
    unfold tokens. rewrite (split_no_sep _ _ Hcomma). simpl.
    now rewrite orb_false_r.
  - reflexivity.
  - reflexivity.
Qed.

Lemma tokens_combine_by_or_witness :
  first_group "{2,4-6,9}" = Some "2,4-6,9"
  /\ shouldHighlightLine (Some "{2,4-6,9}") 4
     = Normal (existsb (token_test (4 + 1)) ["2"; "4-6"; "9"]).
Proof.
  split; [reflexivity|].
  exact (proj1 (tokens_combine_by_or (Some "{2,4-6,9}") "2,4-6,9" eq_refl) 4).
Defined.

(** C5: only the first bracket group counts.  Whatever stands before the
    first group (without a group of its own) and whatever follows it, later
    groups included, the predicate is that of the string made of the first
    group alone; in ["{1} {2}"] line 1 is highlighted and line 2 is not. *)
Theorem only_first_group_counts (s g : string) :
  first_group s = Some g ->
  (forall i, shouldHighlightLine (Some s) i
             = shouldHighlightLine (Some (String "{"%char (g ++ "}"))) i)
  /\ (forall rest i, shouldHighlightLine (Some (s ++ rest)) i
                     = shouldHighlightLine (Some s) i)
  /\ (forall pre post i,
        first_group pre = None ->
        shouldHighlightLine
          (Some (pre ++ String "{"%char (g ++ String "}"%char post))) i
        = shouldHighlightLine (Some (String "{"%char (g ++ "}"))) i)
  /\ map (shouldHighlightLine (Some "{1} {2}")) [0; 1]
     = [Normal true; Normal false].
Proof.
  intros Hg.
  destruct (first_group_sound _ _ Hg) as (pre0 & post0 & _ & Hne & Hall & _).
  pose proof (first_group_braces g Hne Hall) as Hbraces.
  split; [|split; [|split]].
  - intros i.
    rewrite (shouldHighlightLine_tokens (Some s) g i Hg).
    now rewrite (shouldHighlightLine_tokens (Some _) g i Hbraces).
  - intros rest i.
    rewrite (shouldHighlightLine_tokens (Some s) g i Hg).
    apply (shouldHighlightLine_tokens (Some (s ++ rest))).
    now apply first_group_extend.
  - intros pre post i Hpre.
    rewrite (shouldHighlightLine_tokens (Some (String "{"%char _)) g i Hbraces).
    apply (shouldHighlightLine_tokens (Some (pre ++ _))).
    now apply first_group_complete.
  - reflexivity.
Qed.

Lemma only_first_group_counts_witness :
  first_group "jsx {1,3} {2}" = Some "1,3"
  /\ shouldHighlightLine (Some "jsx {1,3} {2}") 1
     = shouldHighlightLine (Some "{1,3}") 1.
Proof.
  split; [reflexivity|].
  exact (proj1 (only_first_group_counts "jsx {1,3} {2}" "1,3" eq_refl) 1).
Defined.

(* ------------------------------------------------------------------ *)
(** ** Tokens off the documented syntax *)

(** C6, as stated, fails: the token ["5-"] of ["{5-}"] has an empty right
    side, which parses to [NaN], and it highlights line 5 (index 4). *)
Lemma unparsed_part_never_matches_fails : ~ unparsed_part_never_matches.
Proof.
  intros H.
  destruct (H (Some "{5-}") "5-" "5-" EmptyString [] [] eq_refl eq_refl
              (or_intror (or_introl eq_refl)) eq_refl 4 ltac:(lia))
    as [Htok Hpred].
  vm_compute in Hpred. discriminate.
Qed.

(** C6 (amended): a token whose part before the first hyphen does not
    parse as an integer (an empty segment left by a trailing comma, a
    token such as ["-5"]) matches no line, and the predicate is that of the
    group without it.  A token [N-], whose right side is empty, is the
    single line [N]. *)
Theorem unparsed_start_never_matches
    (meta : option string) (g tok : string) (l1 l2 : list string) :
  first_group (ToString meta) = Some g ->
  tokens g = (l1 ++ tok :: l2)%list ->
  (forall a rest, split "-"%char tok = a :: rest -> parseInt a = NaN ->
     (forall ln, token_test ln tok = false)
     /\ (forall i, shouldHighlightLine meta i
                   = Normal (existsb (token_test (i + 1)) (l1 ++ l2)%list)))
  /\ (forall a b n, split "-"%char tok = [a; b] ->
        parseInt a = Num n -> parseInt b = NaN ->
        forall ln, token_test ln tok = (ln =? n))
  /\ (forall ln, token_test ln EmptyString = false)
  /\ (forall ln, token_test ln "-5" = false).
Proof.
  intros Hg Htoks.
  split; [|split; [|split]].
  - intros a rest Hs Ha.
    assert (Hnever : forall ln, token_test ln tok = false)
      by (intros ln; now apply (token_test_nan_start tok a rest)).
    split; [exact Hnever|].
    intros i.
    rewrite (shouldHighlightLine_tokens _ _ _ Hg), Htoks.
    now rewrite existsb_without.
  - intros a b n Hs Ha Hb ln.
    now apply (token_test_nan_end tok a b).
  - intros ln. now apply (token_test_nan_start _ EmptyString []).
  - intros ln. now apply (token_test_nan_start _ EmptyString ["5"]).
Qed.

Lemma unparsed_start_never_matches_witness :
  tokens "3,-5," = ["3"; "-5"; ""]
  /\ token_test 5 "-5" = false
  /\ shouldHighlightLine (Some "{3,-5,}") 4
     = Normal (existsb (token_test (4 + 1)) ["3"; ""]).
Proof.
  split; [reflexivity|].
  destruct (proj1 (unparsed_start_never_matches
                     (Some "{3,-5,}") "3,-5," "-5" ["3"] [""]
                     eq_refl eq_refl)
              EmptyString ["5"] eq_refl eq_refl) as [Hnever Hpred].
  split; [apply Hnever | apply Hpred].
Defined.

(** C8: a range token [start-end] with [1 <= end < start] matches no line;
    the predicate is that of the group without it, and it is false at
    every index when the token stands alone.  The lines are safe integers
    and the indices safe indices, where [index + 1] is exact. *)
Theorem reversed_range_matches_nothing
    (meta : option string) (g tok a b : string) (s e : Z)
    (l1 l2 : list string) :
  first_group (ToString meta) = Some g ->
  tokens g = (l1 ++ tok :: l2)%list ->
  split "-"%char tok = [a; b] ->
  parseInt a = Num s -> parseInt b = Num e -> 1 <= e < s ->
  (forall ln, safe_line ln -> token_test ln tok = false)
  /\ (forall i, safe_index i ->
                shouldHighlightLine meta i
                = Normal (existsb (token_test (i + 1)) (l1 ++ l2)%list))
  /\ (l1 = [] -> l2 = [] ->
      forall i, safe_index i -> shouldHighlightLine meta i = Normal false).
Proof.
  intros Hg Htoks Hs Ha Hb Hrev.
  assert (Hnever : forall ln, token_test ln tok = false).
  { intros ln. rewrite (token_test_pair _ _ _ _ _ _ Hs Ha Hb).
    destruct (Z.eqb_spec e 0); [lia|].
    apply andb_false_iff.
    destruct (Z.leb_spec s ln); [right; apply Z.leb_gt; lia | now left]. }
  assert (Hpred : forall i, shouldHighlightLine meta i
                  = Normal (existsb (token_test (i + 1)) (l1 ++ l2)%list)).
  { intros i. rewrite (shouldHighlightLine_tokens _ _ _ Hg), Htoks.
    now rewrite existsb_without. }
  split; [intros ln _; apply Hnever | split; [intros i _; apply Hpred|]].
  intros -> -> i _. now rewrite Hpred.
Qed.

Lemma reversed_range_matches_nothing_witness :
  parseInt "5" = Num 5 /\ parseInt "3" = Num 3
  /\ shouldHighlightLine (Some "{5-3}") 3 = Normal false.
Proof.
  split; [reflexivity | split; [reflexivity|]].
  refine (proj2 (proj2 (reversed_range_matches_nothing
                          (Some "{5-3}") "5-3" "5-3" "5" "3" 5 3 [] []
                          eq_refl eq_refl eq_refl eq_refl eq_refl _))
            eq_refl eq_refl 3 _).
  - lia.
  - unfold safe_index, MAX_SAFE_INTEGER. lia.
Defined.

Lemma eqb_shift (i n : Z) : (i + 1 =? n) = (i =? n - 1).
Proof.
  destruct (Z.eqb_spec (i + 1) n), (Z.eqb_spec i (n - 1));
    try reflexivity; lia.
Qed.

(** C9: a token [N-0], whose right bound parses to 0, is not a range but
    the single line [N]: alone in its group it makes the predicate true at
    index [N - 1] only (among the safe indices, where [index + 1] is
    exact).  A bare token [0] matches no index [i >= 0]. *)
Theorem zero_bound_is_no_bound
    (meta : option string) (g tok : string) :
  first_group (ToString meta) = Some g ->
  In tok (tokens g) ->
  (forall a b n, split "-"%char tok = [a; b] ->
     parseInt a = Num n -> parseInt b = Num 0 ->
     (forall ln, safe_line ln -> token_test ln tok = (ln =? n))
     /\ (tokens g = [tok] ->
         forall i, safe_index i ->
                   shouldHighlightLine meta i = Normal (i =? n - 1)))
  /\ (contains "-"%char tok = false -> parseInt tok = Num 0 ->
      (forall i, 0 <= i -> token_test (i + 1) tok = false)
      /\ (tokens g = [tok] ->
          forall i, 0 <= i -> shouldHighlightLine meta i = Normal false)).
Proof.
  intros Hg Hin. split.
  - intros a b n Hs Ha Hb.
    assert (Hone : forall ln, token_test ln tok = (ln =? n))
      by (intros ln; now rewrite (token_test_pair _ _ _ _ _ _ Hs Ha Hb)).
    split; [intros ln _; apply Hone|].
    intros Htoks i _.
    rewrite (shouldHighlightLine_tokens _ _ _ Hg), Htoks. simpl.
    now rewrite Hone, orb_false_r, eqb_shift.
  - intros Hc Hp.
    assert (Hzero : forall i, 0 <= i -> token_test (i + 1) tok = false).
    { intros i Hi. rewrite (token_test_bare _ _ _ Hc Hp).
      apply Z.eqb_neq. lia. }
    split; [exact Hzero|].
    intros Htoks i Hi.
    rewrite (shouldHighlightLine_tokens _ _ _ Hg), Htoks. simpl.
    now rewrite (Hzero i Hi).
Qed.

Lemma zero_bound_is_no_bound_witness :
  parseInt "0" = Num 0
  /\ shouldHighlightLine (Some "{7-0}") 6 = Normal (6 =? 7 - 1)
  /\ shouldHighlightLine (Some "{7-0}") 3 = Normal (3 =? 7 - 1).
Proof.
  split; [reflexivity|].
  destruct (proj1 (zero_bound_is_no_bound (Some "{7-0}") "7-0" "7-0"
                     eq_refl (or_introl eq_refl))
              "7" "0" 7 eq_refl eq_refl eq_refl) as [_ Hpred].
  split; apply Hpred;
    reflexivity || (unfold safe_index, MAX_SAFE_INTEGER; lia).
Defined.

(* ------------------------------------------------------------------ *)
(** ** Determinism and totality *)

(** Had the expression carried the global flag, the call to [test] would
    move [lastIndex] past the match and the [exec] that follows would find
    nothing: the embedding tells the two apart. *)
Example global_flag_would_throw :
  calculate_with (mkRegExp true 0) (Some "{1}")
  = (Throw TypeError, mkRegExp true 0).
Proof. reflexivity. Qed.

(** C7: the function is deterministic.  Two selectors built from one meta
    string answer alike at every index, and one selector answers alike
    each time it is asked.  Nothing is carried from one call to the next:
    the expression object leaves the body as it entered it, and the result
    does not depend on the [lastIndex] it entered with. *)
Theorem selector_is_deterministic (m : option string) (i : Z) :
  (forall p1 p2,
     calculateLinesToHighlight m = p1 -> calculateLinesToHighlight m = p2 ->
     query p1 i = query p2 i)
  /\ (forall p b1 b2,
        calculateLinesToHighlight m = p ->
        query p i = b1 -> query p i = b2 -> b1 = b2)
  /\ (forall R, global R = false ->
        calculate_with R m = (calculateLinesToHighlight m, R))
  /\ (let '(p1, R1) := calculate_with RegEx_literal m in
      let '(p2, R2) := calculate_with R1 m in
      query p1 i = query p2 i /\ R2 = RegEx_literal).
Proof.
  split; [|split; [|split]].
  - intros p1 p2 <- <-. reflexivity.
  - intros p b1 b2 _ <- <-. reflexivity.
  - intros R HR.
    rewrite calculateLinesToHighlight_eq.
    now apply calculate_with_not_global.
  - rewrite (calculate_with_not_global RegEx_literal m eq_refl).
    rewrite (calculate_with_not_global RegEx_literal m eq_refl).
    split; reflexivity.
Qed.

Lemma selector_is_deterministic_witness :
  query (calculateLinesToHighlight (Some "{2,4-6}")) 4
  = query (Normal (highlight_predicate [[Num 2]; [Num 4; Num 6]])) 4
  /\ calculate_with (mkRegExp false 7) (Some "{2,4-6}")
     = (calculateLinesToHighlight (Some "{2,4-6}"), mkRegExp false 7).
Proof.
  split.
  - exact (proj1 (selector_is_deterministic (Some "{2,4-6}") 4)
             _ _ eq_refl eq_refl).
  - exact (proj1 (proj2 (proj2 (selector_is_deterministic (Some "{2,4-6}") 4)))
             (mkRegExp false 7) eq_refl).
Defined.

(** C10: construction and query are total.  For every meta string, absent
    or present, the function completes normally with a predicate, and the
    predicate answers with a boolean at every integer index.  When [test]
    succeeds, the [exec] that follows on the same string yields a match
    array, so reading its element 1 does not fail. *)
Theorem construction_and_query_total (meta : option string) :
  (exists p, calculateLinesToHighlight meta = Normal p)
  /\ (forall i, exists b, shouldHighlightLine meta i = Normal b)
  /\ (forall R1,
        RegExp_test RegEx_literal (ToString meta) = (true, R1) ->
        exists arr R2,
          RegExp_exec R1 (ToString meta) = (Some arr, R2)
          /\ first_group (ToString meta) = Some (group1 arr)).
Proof.
  split; [|split].
  - rewrite calculateLinesToHighlight_eq.
    destruct (first_group (ToString meta)); eauto.
  - intros i. unfold shouldHighlightLine.
    rewrite calculateLinesToHighlight_eq.
    destruct (first_group (ToString meta)); simpl; eauto.
  - intros R1. unfold RegExp_test.
    rewrite (RegExp_exec_not_global RegEx_literal _ eq_refl).
    unfold first_group.
    destruct (scan (ToString meta) 0) as [[j g]|] eqn:Hs;
      [|discriminate].
    intros H. injection H as <-.
    rewrite (RegExp_exec_not_global RegEx_literal _ eq_refl), Hs.
    eauto.
Qed.

Lemma construction_and_query_total_witness :
  RegExp_test RegEx_literal "jsx {12}" = (true, RegEx_literal)
  /\ exists arr R2,
       RegExp_exec RegEx_literal "jsx {12}" = (Some arr, R2)
       /\ first_group "jsx {12}" = Some (group1 arr).
Proof.
  split; [reflexivity|].
  exact (proj2 (proj2 (construction_and_query_total (Some "jsx {12}")))
           RegEx_literal eq_refl).
Defined.

(* ------------------------------------------------------------------ *)
(** ** Numerals, as [parseInt] reads them *)

Section Numerals.

Lemma read_digits_acc (d : uint) (acc : positive) :
  read_digits (NilEmpty.string_of_uint d) true (Z.pos acc)
  = Some (Z.pos (Pos.of_uint_acc d acc)).
Proof.
  revert acc.
  induction d as [|d IH|d IH|d IH|d IH|d IH|d IH|d IH|d IH|d IH|d IH];
    intros acc; [reflexivity|..];
    cbn [NilEmpty.string_of_uint read_digits Pos.of_uint_acc];
    change (is_digit _) with true; cbv iota;
    rewrite <- IH; f_equal;
    match goal with
    | |- context [digit_value ?c] =>
        let v := eval vm_compute in (digit_value c) in
        change (digit_value c) with v
    end;
    lia.
Qed.

Lemma read_digits_uint (d : uint) :
  read_digits (NilEmpty.string_of_uint d) true 0
  = Some (Z.of_N (Pos.of_uint d)).
Proof.
  induction d as [|d IH|d IH|d IH|d IH|d IH|d IH|d IH|d IH|d IH|d IH];
    [reflexivity | exact IH |..];
    cbn [NilEmpty.string_of_uint read_digits Pos.of_uint];
    change (is_digit _) with true; cbv iota;
    exact (read_digits_acc d _).
Qed.

Lemma string_of_uint_digits (d : uint) :
  all_digits (NilEmpty.string_of_uint d) = true.
Proof.
  induction d; simpl; try reflexivity; exact IHd.
Qed.

Lemma numeral_digits (n : N) : all_digits (numeral n) = true.
Proof. apply string_of_uint_digits. Qed.

Lemma to_uint_not_nil (n : N) : N.to_uint n <> Nil.
Proof.
  destruct n as [|p]; [discriminate|].
  apply DecimalPos.Unsigned.to_uint_nonnil.
Qed.

Lemma numeral_not_empty (n : N) : numeral n <> EmptyString.
Proof.
  unfold numeral. pose proof (to_uint_not_nil n) as H.
  destruct (N.to_uint n); [congruence | discriminate ..].
Qed.

(** A string of digits is read whole, whatever [seen] says. *)
Lemma parseInt_digits (s : string) :
  s <> EmptyString -> all_digits s = true ->
  parseInt s = match read_digits s true 0 with
               | Some n => Num n
               | None => NaN
               end.
Proof.
  intros Hne Hall. destruct s as [|c t]; [congruence|].
  simpl in Hall. apply andb_true_iff in Hall as [Hc _].
  unfold parseInt.
  assert (Hw : is_white_space c = false).
  { revert Hc. destruct c as [[] [] [] [] [] [] [] []]; reflexivity
                                                        || discriminate. }
  cbn [trim_start]. rewrite Hw.
  assert (Hsign : match String c t with
                  | String "-"%char u => (-1, u)
                  | String "+"%char u => (1, u)
                  | _ => (1, String c t)
                  end = (1, String c t)).
  { revert Hc. destruct c as [[] [] [] [] [] [] [] []]; reflexivity
                                                        || discriminate. }
  rewrite Hsign. cbn [read_digits]. rewrite Hc.
  destruct (read_digits t true (10 * 0 + digit_value c)) as [n|];
    [|reflexivity].
  f_equal. destruct n; reflexivity.
Qed.

(** [parseInt] reads the decimal numeral of [n] back as [n]. *)
Lemma parseInt_numeral (n : N) : parseInt (numeral n) = Num (Z.of_N n).
Proof.
  rewrite parseInt_digits
    by (apply numeral_not_empty || apply numeral_digits).
  unfold numeral. rewrite read_digits_uint.
  change (Pos.of_uint (N.to_uint n)) with (N.of_uint (N.to_uint n)).
  now rewrite DecimalN.Unsigned.of_to.
Qed.

Lemma digits_in_class (s : string) : all_digits s = true -> all_class s = true.
Proof.
  induction s as [|c t IH]; simpl; [reflexivity|].
  intros H. apply andb_true_iff in H as [Hc Ht].
  unfold in_class. now rewrite Hc, (IH Ht).
Qed.

Lemma digits_without (c : ascii) (s : string) :
  is_digit c = false -> all_digits s = true -> contains c s = false.
Proof.
  intros Hc. induction s as [|d t IH]; simpl; [reflexivity|].
  intros H. apply andb_true_iff in H as [Hd Ht].
  rewrite (IH Ht), orb_false_r.
  destruct (Ascii.eqb_spec d c) as [->|]; [congruence | reflexivity].
Qed.

End Numerals.

(* ------------------------------------------------------------------ *)
(** ** A written group and what it highlights *)

Section WrittenGroups.

Lemma split_app_sep (sep : ascii) (a b : string) :
  contains sep a = false ->
  split sep (a ++ String sep b) = a :: split sep b.
Proof.
  induction a as [|c a IH]; simpl; intros H.
  - now rewrite Ascii.eqb_refl.
  - apply orb_false_iff in H as [Hc Ha].
    now rewrite Hc, (IH Ha).
Qed.

Lemma concat_cons2 (c : ascii) (x y : string) (l : list string) :
  String.concat (String c EmptyString) (x :: y :: l)
  = x ++ String c (String.concat (String c EmptyString) (y :: l)).
Proof. reflexivity. Qed.

(** Splitting a joined list gives the list back, when no element holds the
    separator. *)
Lemma split_concat (sep : ascii) (l : list string) :
  l <> [] -> (forall t, In t l -> contains sep t = false) ->
  split sep (String.concat (String sep EmptyString) l) = l.
Proof.
  induction l as [|x l IH]; intros Hne Hl; [congruence|].
  destruct l as [|y l].
  - simpl String.concat. apply split_no_sep. apply Hl. now left.
  - rewrite concat_cons2, split_app_sep by (apply Hl; now left).
    f_equal. apply IH; [discriminate|].
    intros t Ht. apply Hl. now right.
Qed.

Lemma all_class_app (a b : string) :
  all_class (a ++ b) = (all_class a && all_class b)%bool.
Proof.
  induction a as [|c a IH]; simpl; [reflexivity|].
  now rewrite IH, andb_assoc.
Qed.

Lemma all_class_concat (l : list string) :
  (forall t, In t l -> all_class t = true) ->
  all_class (String.concat "," l) = true.
Proof.
  induction l as [|x l IH]; intros Hl; [reflexivity|].
  destruct l as [|y l].
  - apply Hl. now left.
  - rewrite concat_cons2, all_class_app.
    rewrite (Hl x) by now left.
    cbn [all_class andb]. change (in_class ","%char) with true.
    apply IH. intros t Ht. apply Hl. now right.
Qed.

Lemma concat_not_empty (sep : string) (l : list string) :
  l <> [] -> (forall t, In t l -> t <> EmptyString) ->
  String.concat sep l <> EmptyString.
Proof.
  destruct l as [|x l]; intros Hne Hl; [congruence|].
  assert (Hx : x <> EmptyString) by (apply Hl; now left).
  destruct l as [|y l]; [exact Hx|].
  destruct x; [congruence | discriminate].
Qed.

Lemma contains_app (c : ascii) (a b : string) :
  contains c (a ++ b) = (contains c a || contains c b)%bool.
Proof.
  induction a as [|d a IH]; simpl; [reflexivity|].
  now rewrite IH, orb_assoc.
Qed.

Lemma write_token_class (r : LineRange) : all_class (write_token r) = true.
Proof.
  destruct r as [n|a b]; simpl.
  - apply digits_in_class, numeral_digits.
  - rewrite all_class_app. cbn [all_class].
    now rewrite !digits_in_class by apply numeral_digits.
Qed.

Lemma write_token_no_comma (r : LineRange) :
  contains ","%char (write_token r) = false.
Proof.
  destruct r as [n|a b]; simpl.
  - apply digits_without; [reflexivity | apply numeral_digits].
  - rewrite contains_app. cbn [contains].
    now rewrite !digits_without by (reflexivity || apply numeral_digits).
Qed.

Lemma write_token_not_empty (r : LineRange) : write_token r <> EmptyString.
Proof.
  destruct r as [n|a b]; simpl.
  - apply numeral_not_empty.
  - pose proof (numeral_not_empty a).
    destruct (numeral a); [congruence | discriminate].
Qed.

(** The test of a written token is the test of the lines it names. *)
Lemma token_test_write_token (r : LineRange) (ln : Z) :
  right_bound_positive r ->
  token_test ln (write_token r) = names_line ln r.
Proof.
  assert (Hhyphen : forall n, contains "-"%char (numeral n) = false)
    by (intros n; apply digits_without;
        [reflexivity | apply numeral_digits]).
  destruct r as [n|a b]; simpl; intros Hb.
  - apply token_test_bare; [apply Hhyphen | apply parseInt_numeral].
  - rewrite (token_test_pair _ (numeral a) (numeral b)
               (Z.of_N a) (Z.of_N b)).
    + destruct (Z.eqb_spec (Z.of_N b) 0); [lia | reflexivity].
    + rewrite split_app_sep by apply Hhyphen.
      now rewrite split_no_sep by apply Hhyphen.
    + apply parseInt_numeral.
    + apply parseInt_numeral.
Qed.

Lemma tokens_write_group (l : list LineRange) :
  l <> [] -> tokens (write_group l) = map write_token l.
Proof.
  intros Hne. unfold tokens, write_group.
  apply split_concat.
  - destruct l; [congruence | discriminate].
  - intros t Ht. apply in_map_iff in Ht as (r & <- & _).
    apply write_token_no_comma.
Qed.

Lemma write_group_class (l : list LineRange) :
  all_class (write_group l) = true.
Proof.
  apply all_class_concat. intros t Ht.
  apply in_map_iff in Ht as (r & <- & _). apply write_token_class.
Qed.

Lemma write_group_not_empty (l : list LineRange) :
  l <> [] -> write_group l <> EmptyString.
Proof.
  intros Hne. apply concat_not_empty.
  - destruct l; [congruence | discriminate].
  - intros t Ht. apply in_map_iff in Ht as (r & <- & _).
    apply write_token_not_empty.
Qed.

(** X1: the function reads the annotation syntax as written.  For a
    non-empty list of single lines [N] and ranges [N-M] (with [M] at least
    1), written with commas between braces after any text that holds no
    group and before any text at all, the predicate is true at a safe
    index [i] exactly when one of them names line [i + 1]. *)
Theorem written_group_semantics
    (pre post : string) (l : list LineRange) (i : Z) :
  first_group pre = None ->
  l <> [] ->
  Forall right_bound_positive l ->
  safe_index i ->
  shouldHighlightLine
    (Some (pre ++ String "{"%char (write_group l ++ String "}"%char post))) i
  = Normal (existsb (names_line (i + 1)) l).
Proof.
  intros Hpre Hne Hok _.
  rewrite (shouldHighlightLine_tokens _ (write_group l));
    [|apply first_group_complete;
      [exact Hpre | now apply write_group_not_empty
       | apply write_group_class]].
  f_equal. rewrite (tokens_write_group l Hne), existsb_map.
  clear Hne. induction Hok as [|r l Hr _ IH]; [reflexivity|].
  simpl. now rewrite IH, (token_test_write_token r _ Hr).
Qed.

Lemma written_group_semantics_witness :
  write_group [Single 2; Range 4 6; Single 9] = "2,4-6,9"
  /\ shouldHighlightLine (Some "jsx {2,4-6,9} title") 4
     = Normal (existsb (names_line (4 + 1)) [Single 2; Range 4 6; Single 9]).
Proof.
  split; [reflexivity|].
  apply (written_group_semantics "jsx " " title"
           [Single 2; Range 4 6; Single 9] 4 eq_refl).
  - discriminate.
  - repeat constructor; discriminate.
  - unfold safe_index, MAX_SAFE_INTEGER. lia.
Defined.

End WrittenGroups.

(* ------------------------------------------------------------------ *)
(** ** Groups off the syntax *)

Section OffSyntax.

(** X2: only the first two parts of a token count.  In a group made of one
    token [a-b-c], whatever follows the second hyphen is ignored: the
    predicate is that of the token [a-b]. *)
Theorem parts_after_second_ignored (a b c : string) (i : Z) :
  all_digits a = true -> all_digits b = true ->
  all_class c = true -> contains ","%char c = false ->
  shouldHighlightLine
    (Some (String "{"%char
             ((a ++ String "-"%char (b ++ String "-"%char c)) ++ "}"))) i
  = shouldHighlightLine
      (Some (String "{"%char ((a ++ String "-"%char b) ++ "}"))) i.
Proof.
  intros Ha Hb Hc Hcomma.
  assert (Hh : forall d, all_digits d = true ->
                         contains "-"%char d = false)
    by (intros d; now apply digits_without).
  assert (Hk : forall d, all_digits d = true ->
                         contains ","%char d = false)
    by (intros d; now apply digits_without).
  set (long := a ++ String "-"%char (b ++ String "-"%char c)).
  set (short := a ++ String "-"%char b).
  assert (Hlong : first_group (String "{"%char (long ++ "}")) = Some long).
  { apply first_group_braces.
    - unfold long. destruct a; discriminate.
    - unfold long. rewrite all_class_app. cbn [all_class].
      rewrite all_class_app. cbn [all_class].
      now rewrite (digits_in_class a Ha), (digits_in_class b Hb), Hc. }
  assert (Hshort : first_group (String "{"%char (short ++ "}")) = Some short).
  { apply first_group_braces.
    - unfold short. destruct a; discriminate.
    - unfold short. rewrite all_class_app. cbn [all_class].
      now rewrite (digits_in_class a Ha), (digits_in_class b Hb). }
  rewrite (shouldHighlightLine_tokens (Some _) long i Hlong).
  rewrite (shouldHighlightLine_tokens (Some _) short i Hshort).
  f_equal. unfold tokens.
  rewrite (split_no_sep ","%char long), (split_no_sep ","%char short).
  - simpl. f_equal. unfold token_test, long, short.
    rewrite !split_app_sep by auto.
    now rewrite (split_no_sep _ b) by auto.
  - unfold short. rewrite contains_app. cbn [contains].
    now rewrite (Hk a Ha), (Hk b Hb).
  - unfold long. rewrite contains_app. cbn [contains].
    rewrite contains_app. cbn [contains].
    now rewrite (Hk a Ha), (Hk b Hb), Hcomma.
Qed.

Lemma parts_after_second_ignored_witness :
  shouldHighlightLine (Some "{1-3-7}") 6 = shouldHighlightLine (Some "{1-3}") 6.
Proof.
  exact (parts_after_second_ignored "1" "3" "7" 6
           eq_refl eq_refl eq_refl eq_refl).
Defined.

Lemma class_without (c : ascii) (s : string) :
  in_class c = false -> all_class s = true -> contains c s = false.
Proof.
  intros Hc. induction s as [|d t IH]; simpl; [reflexivity|].
  intros H. apply andb_true_iff in H as [Hd Ht].
  rewrite (IH Ht), orb_false_r.
  destruct (Ascii.eqb_spec d c) as [->|]; [congruence | reflexivity].
Qed.

(** X3: a meta string that lacks an opening brace or lacks a closing brace
    highlights no line. *)
Theorem missing_brace_highlights_nothing (s : string) (i : Z) :
  contains "{"%char s = false \/ contains "}"%char s = false ->
  shouldHighlightLine (Some s) i = Normal false.
Proof.
  intros H. apply shouldHighlightLine_none. simpl.
  destruct (first_group s) as [g|] eqn:Hg; [|reflexivity].
  exfalso.
  destruct (first_group_sound _ _ Hg) as (pre & post & -> & _ & _ & _).
  destruct H as [H|H]; rewrite contains_app in H; cbn [contains] in H.
  - rewrite Ascii.eqb_refl, orb_true_r in H. discriminate.
  - rewrite contains_app in H. cbn [contains] in H.
    rewrite Ascii.eqb_refl, !orb_true_r in H. discriminate.
Qed.

Lemma missing_brace_highlights_nothing_witness :
  shouldHighlightLine (Some "jsx {1,3") 0 = Normal false.
Proof.
  exact (missing_brace_highlights_nothing "jsx {1,3" 0 (or_intror eq_refl)).
Defined.

(** The text before the first occurrence of a character is determined. *)
Lemma first_occurrence (c : ascii) (a b a' b' : string) :
  contains c a = false -> contains c b = false ->
  a ++ String c b = a' ++ String c b' -> a = a' /\ b = b'.
Proof.
  revert a'.
  induction a as [|d a IH]; intros a' Ha Hb H.
  - destruct a' as [|d' a'].
    + injection H as <-. auto.
    + simpl in H. injection H as <- ->.
      rewrite contains_app in Hb. cbn [contains] in Hb.
      rewrite Ascii.eqb_refl, orb_true_r in Hb. discriminate.
  - simpl in Ha. apply orb_false_iff in Ha as [Hd Ha].
    destruct a' as [|d' a'].
    + simpl in H. injection H as -> _.
      rewrite Ascii.eqb_refl in Hd. discriminate.
    + simpl in H. injection H as <- H.
      destruct (IH a' Ha Hb H) as [-> ->]. auto.
Qed.

(** X4: when the only braces of a meta string enclose something that is
    empty or holds a character other than a digit, a comma or a hyphen (a
    space after a comma, a letter), no line is highlighted. *)
Theorem unusable_group_highlights_nothing
    (pre body post : string) (i : Z) :
  contains "{"%char pre = false ->
  contains "{"%char body = false -> contains "}"%char body = false ->
  contains "{"%char post = false -> contains "}"%char post = false ->
  body = EmptyString \/ all_class body = false ->
  shouldHighlightLine
    (Some (pre ++ String "{"%char (body ++ String "}"%char post))) i
  = Normal false.
Proof.
  intros Hpre Hb1 Hb2 Hp1 Hp2 Hbad.
  apply shouldHighlightLine_none. simpl.
  destruct (first_group _) as [g|] eqn:Hg; [|reflexivity].
  exfalso.
  destruct (first_group_sound _ _ Hg) as (pre' & post' & Heq & Hne & Hall & _).
  apply first_occurrence in Heq as [_ Heq]; [|exact Hpre|].
  - apply first_occurrence in Heq as [Hbody _]; [|exact Hb2|exact Hp2].
    subst g. destruct Hbad as [->| Hbad]; congruence.
  - rewrite contains_app. cbn [contains]. now rewrite Hb1, Hp1.
Qed.

Lemma unusable_group_highlights_nothing_witness :
  all_class "1, 3" = false
  /\ shouldHighlightLine (Some "jsx {1, 3} title") 0 = Normal false.
Proof.
  split; [reflexivity|].
  exact (unusable_group_highlights_nothing "jsx " "1, 3" " title" 0
           eq_refl eq_refl eq_refl eq_refl eq_refl (or_intror eq_refl)).
Defined.

End OffSyntax.

(* ------------------------------------------------------------------ *)
(** ** What a group holds *)

Section GroupContents.

(** X5: neither the order of the tokens nor their repetition matters: two
    meta strings whose first groups hold the same tokens give predicates
    that agree at every index. *)
Theorem token_order_irrelevant
    (m1 m2 : option string) (g1 g2 : string) (i : Z) :
  first_group (ToString m1) = Some g1 ->
  first_group (ToString m2) = Some g2 ->
  (forall t, In t (tokens g1) <-> In t (tokens g2)) ->
  shouldHighlightLine m1 i = shouldHighlightLine m2 i.
Proof.
  intros H1 H2 Hsame.
  rewrite (shouldHighlightLine_tokens _ _ _ H1).
  rewrite (shouldHighlightLine_tokens _ _ _ H2).
  f_equal. apply eq_true_iff_eq.
  rewrite !existsb_exists.
  split; intros (t & Ht & Htest); exists t; split; auto; now apply Hsame.
Qed.

Lemma token_order_irrelevant_witness :
  shouldHighlightLine (Some "{1,3-4}") 2
  = shouldHighlightLine (Some "jsx {3-4,1,3-4}") 2.
Proof.
  apply (token_order_irrelevant (Some "{1,3-4}") (Some "jsx {3-4,1,3-4}")
           "1,3-4" "3-4,1,3-4" 2 eq_refl eq_refl).
  intros t. simpl. tauto.
Defined.








Lemma in_written_numbers (g tok part : string) (n : Z) :
  In tok (tokens g) -> In part (split "-"%char tok) ->
  parseInt part = Num n -> In n (written_numbers g).
Proof.
  intros Htok Hpart Hn. unfold written_numbers.
  apply in_flat_map. exists tok. split; [exact Htok|].
  apply in_flat_map. exists part. split; [exact Hpart|].
  rewrite Hn. now left.
Qed.

(** When the predicate is true at index [i], the group holds numbers
    [lo] and [hi] with [0 <= lo <= i + 1 <= hi]. *)
Lemma highlighted_line_bounds
    (meta : option string) (g : string) (i : Z) :
  first_group (ToString meta) = Some g ->
  shouldHighlightLine meta i = Normal true ->
  exists lo hi,
    In lo (written_numbers g) /\ In hi (written_numbers g)
    /\ 0 <= lo <= i + 1 /\ i + 1 <= hi.
Proof.
  intros Hg Hi.
  rewrite (shouldHighlightLine_tokens _ _ _ Hg) in Hi.
  injection Hi as Hi. apply existsb_exists in Hi as (tok & Htok & Htest).
  unfold token_test in Htest.
  destruct (split "-"%char tok) as [|a rest] eqn:Hs; [discriminate|].
  assert (Ha : In a (split "-"%char tok)) by (rewrite Hs; now left).
  cbn [map] in Htest. unfold range_test in Htest. cbn [nth] in Htest.
  destruct (parseInt a) as [| |lo] eqn:Hlo.
  - destruct (ToBoolean _); discriminate.
  - destruct (ToBoolean _); discriminate.
  - assert (Hlo0 : 0 <= lo)
      by (apply (parseInt_nonneg a); [|exact Hlo];
          exact (split_parts_no_sep _ _ _ Ha)).
    pose proof (in_written_numbers g tok a lo Htok Ha Hlo) as Hinlo.
    destruct rest as [|b rest].
    + simpl in Htest. apply Z.eqb_eq in Htest.
      exists lo, lo. repeat split; auto; lia.
    + assert (Hb : In b (split "-"%char tok))
        by (rewrite Hs; right; now left).
      cbn [map nth] in Htest.
      destruct (parseInt b) as [| |hi] eqn:Hhi.
      * simpl in Htest. apply Z.eqb_eq in Htest.
        exists lo, lo. repeat split; auto; lia.
      * simpl in Htest. apply Z.eqb_eq in Htest.
        exists lo, lo. repeat split; auto; lia.
      * cbn [ToBoolean] in Htest.
        destruct (hi =? 0).
        -- simpl in Htest. apply Z.eqb_eq in Htest.
           exists lo, lo. repeat split; auto; lia.
        -- simpl in Htest. apply andb_true_iff in Htest as [H1 H2].
           apply Z.leb_le in H1, H2.
           exists lo, hi. repeat split; auto.
           exact (in_written_numbers g tok b hi Htok Hb Hhi).
Qed.

(** X7: a highlighted line lies between two numbers that the group holds:
    when the predicate is true at a safe index [i], the group holds
    numerals of values [lo] and [hi] with [0 <= lo <= i + 1 <= hi].  So no
    line after the largest number of the group is highlighted. *)
Theorem highlighted_line_is_bounded
    (meta : option string) (g : string) (i : Z) :
  first_group (ToString meta) = Some g ->
  safe_index i ->
  (shouldHighlightLine meta i = Normal true ->
   exists lo hi,
     In lo (written_numbers g) /\ In hi (written_numbers g)
     /\ 0 <= lo <= i + 1 /\ i + 1 <= hi)
  /\ ((forall n, In n (written_numbers g) -> n < i + 1) ->
      shouldHighlightLine meta i = Normal false).
Proof.
  intros Hg _. split; [now apply highlighted_line_bounds|].
  intros Hsmall.
  destruct (shouldHighlightLine meta i) as [[|]|e] eqn:Hq.
  - exfalso.
    destruct (highlighted_line_bounds _ _ _ Hg Hq)
      as (lo & hi & _ & Hhi & _ & Hle).
    specialize (Hsmall hi Hhi). lia.
  - reflexivity.
  - rewrite (shouldHighlightLine_tokens _ _ _ Hg) in Hq. discriminate.
Qed.

Lemma highlighted_line_is_bounded_witness :
  written_numbers "2,4-6" = [2; 4; 6]
  /\ exists lo hi,
       In lo (written_numbers "2,4-6") /\ In hi (written_numbers "2,4-6")
       /\ 0 <= lo <= 4 + 1 /\ 4 + 1 <= hi.
Proof.
  split; [reflexivity|].
  refine (proj1 (highlighted_line_is_bounded (Some "{2,4-6}") "2,4-6" 4
                   eq_refl _) eq_refl).
  unfold safe_index, MAX_SAFE_INTEGER. lia.
Defined.

(** X8: numbers are read in base 10, so a leading zero changes nothing: a
    group made of the numeral [0d] highlights what the group made of [d]
    highlights. *)
Theorem leading_zero_ignored (d : string) (i : Z) :
  d <> EmptyString -> all_digits d = true ->
  shouldHighlightLine (Some (String "{"%char (String "0"%char d ++ "}"))) i
  = shouldHighlightLine (Some (String "{"%char (d ++ "}"))) i.
Proof.
  intros Hne Hd.
  assert (Hd0 : all_digits (String "0"%char d) = true) by exact Hd.
  assert (Hparse : parseInt (String "0"%char d) = parseInt d).
  { rewrite (parseInt_digits (String "0"%char d)) by (discriminate || auto).
    now rewrite (parseInt_digits d Hne Hd). }
  assert (Hone : forall s, s <> EmptyString -> all_digits s = true ->
            shouldHighlightLine (Some (String "{"%char (s ++ "}"))) i
            = Normal (js_strict_eq (i + 1) (parseInt s))).
  { intros s Hs Hds.
    rewrite (shouldHighlightLine_tokens (Some _) s i)
      by (apply first_group_braces; [exact Hs | now apply digits_in_class]).
    unfold tokens, token_test.
    rewrite (split_no_sep ","%char s) by now apply digits_without.
    cbn [existsb]. rewrite (split_no_sep "-"%char s)
      by now apply digits_without.
    unfold range_test. simpl. now rewrite orb_false_r. }
  rewrite (Hone (String "0"%char d)) by (discriminate || auto).
  now rewrite (Hone d Hne Hd), Hparse.
Qed.

Lemma leading_zero_ignored_witness :
  shouldHighlightLine (Some "{08}") 7 = shouldHighlightLine (Some "{8}") 7.
Proof.
  apply (leading_zero_ignored "8" 7); [discriminate | reflexivity].
Defined.

End GroupContents.

(* ------------------------------------------------------------------ *)
(** ** Exact integers and doubles *)

Section DoubleAdequacy.

(** The rounding of the runtime, known by two facts: the integers up to
    2^53 are kept as they are, and a larger one becomes [Infinity] or an
    integer that is at least 2^53. *)
Variable to_double : Z -> double_value.
Hypothesis to_double_exact :
  forall z, 0 <= z <= 2 ^ 53 -> to_double z = DNum z.
Hypothesis to_double_large :
  forall z, 2 ^ 53 < z ->
    to_double z = DInfinity
    \/ exists z', to_double z = DNum z' /\ 2 ^ 53 <= z'.

Lemma two_53 : 2 ^ 53 = 9007199254740992.
Proof. reflexivity. Qed.

Lemma to_double_compare (z ln : Z) :
  0 <= z -> safe_line ln ->
  double_ge ln (to_double z) = (z <=? ln)
  /\ double_le ln (to_double z) = (ln <=? z)
  /\ double_strict_eq ln (to_double z) = (ln =? z)
  /\ double_ToBoolean (to_double z) = negb (z =? 0).
Proof.
  unfold safe_line, MAX_SAFE_INTEGER. rewrite two_53. intros Hz Hln.
  destruct (Z_le_gt_dec z (2 ^ 53)) as [Hsmall|Hbig].
  - rewrite to_double_exact by lia. repeat split.
  - assert (Hge : (z <=? ln) = false) by (apply Z.leb_gt; rewrite two_53 in Hbig; lia).
    assert (Hle : (ln <=? z) = true) by (apply Z.leb_le; rewrite two_53 in Hbig; lia).
    assert (Heq : (ln =? z) = false) by (apply Z.eqb_neq; rewrite two_53 in Hbig; lia).
    assert (Hnz : (z =? 0) = false) by (apply Z.eqb_neq; rewrite two_53 in Hbig; lia).
    rewrite Hge, Hle, Heq, Hnz.
    destruct (to_double_large z) as [-> | (z' & -> & Hz')]; [lia | |].
    + repeat split.
    + rewrite two_53 in Hz'. cbn [double_ge double_le double_strict_eq
                                   double_ToBoolean].
      repeat split.
      * apply Z.leb_gt. lia.
      * apply Z.leb_le. lia.
      * apply Z.eqb_neq. lia.
      * apply negb_true_iff, Z.eqb_neq. lia.
Qed.

Lemma nth_as_double (n : nat) (range : list value) :
  nth n (map (as_double to_double) range) DUndefined
  = as_double to_double (nth n range Undefined).
Proof. exact (map_nth (as_double to_double) range Undefined n). Qed.

(** At a safe line the callback of [some] answers alike on the exact
    values and on the doubles. *)
Lemma double_range_test_exact (ln : Z) (range : list value) :
  safe_line ln ->
  (forall z, In (Num z) range -> 0 <= z) ->
  double_range_test ln (map (as_double to_double) range)
  = range_test ln range.
Proof.
  intros Hln Hpos.
  assert (Hnth : forall n z, nth n range Undefined = Num z -> 0 <= z).
  { intros n z H. apply Hpos.
    destruct (nth_in_or_default n range Undefined) as [Hin|Hd];
      [now rewrite <- H | congruence]. }
  unfold double_range_test, range_test. rewrite !nth_as_double.
  destruct (nth 1 range Undefined) as [| |e] eqn:He;
    destruct (nth 0 range Undefined) as [| |s] eqn:Hs;
    cbn [as_double double_ToBoolean ToBoolean double_strict_eq js_strict_eq
         js_ge js_le];
    try reflexivity.
  - now destruct (to_double_compare s ln (Hnth _ _ Hs) Hln) as (_ & _ & -> & _).
  - now destruct (to_double_compare s ln (Hnth _ _ Hs) Hln) as (_ & _ & -> & _).
  - destruct (to_double_compare e ln (Hnth _ _ He) Hln) as (_ & _ & _ & ->).
    destruct (negb (e =? 0)); reflexivity.
  - destruct (to_double_compare e ln (Hnth _ _ He) Hln) as (_ & _ & _ & ->).
    destruct (negb (e =? 0)); reflexivity.
  - destruct (to_double_compare e ln (Hnth _ _ He) Hln)
      as (_ & Hle & _ & ->).
    destruct (to_double_compare s ln (Hnth _ _ Hs) Hln)
      as (Hge & _ & Heq & _).
    now rewrite Hge, Hle, Heq.
Qed.

(** The numbers the function parses out of a group are not negative. *)
Lemma parse_lineNumbers_nonneg (g : string) (range : list value) (z : Z) :
  In range (parse_lineNumbers g) -> In (Num z) range -> 0 <= z.
Proof.
  unfold parse_lineNumbers. intros Hr Hz.
  apply in_map_iff in Hr as (tok & <- & _).
  apply in_map_iff in Hz as (part & Hp & Hpart).
  apply (parseInt_nonneg part); [|exact Hp].
  exact (split_parts_no_sep _ _ _ Hpart).
Qed.

(** At a safe index the predicate computed on doubles, whatever the
    numerals of the group round to, is the predicate computed on exact
    integers. *)
Theorem doubles_agree_at_safe_index (g : string) (i : Z) :
  safe_index i ->
  existsb (double_range_test (i + 1))
          (map (map (as_double to_double)) (parse_lineNumbers g))
  = highlight_predicate (parse_lineNumbers g) i.
Proof.
  intros Hi. unfold highlight_predicate.
  assert (Hln : safe_line (i + 1))
    by (unfold safe_index, safe_line in *; lia).
  pose proof (parse_lineNumbers_nonneg g) as Hpos.
  induction (parse_lineNumbers g) as [|range l IH]; [reflexivity|].
  cbn [map existsb].
  rewrite double_range_test_exact; [|exact Hln|].
  - f_equal. apply IH. intros r z Hr. apply (Hpos r z). now right.
  - intros z Hz. apply (Hpos range z); [now left | exact Hz].
Qed.

End DoubleAdequacy.

(* ------------------------------------------------------------------ *)
(** ** The lines of the [Code] component *)

Section CodeLines.

Variables Token LineProps TokenProps Key : Type.
Variable number_key : Z -> Key.
Variable line_props_key : LineProps -> option Key.
Variable token_props_key : TokenProps -> option Key.
Variable getLineProps : LineInput Token -> LineProps.
Variable getTokenProps : TokenInput Token -> TokenProps.

Let Code := Code_lines number_key line_props_key token_props_key
                       getLineProps getTokenProps.
Let element := line_element number_key line_props_key token_props_key
                            getLineProps getTokenProps.
Let span := token_span number_key token_props_key getTokenProps.

Lemma map_from_length {A B : Type} (f : A -> Z -> B) (i : Z) (l : list A) :
  List.length (map_from f i l) = List.length l.
Proof.
  revert i. induction l as [|a l IH]; intros i; simpl;
    [reflexivity | now rewrite IH].
Qed.

Lemma map_from_nth {A B : Type} (f : A -> Z -> B) (i : Z) (l : list A)
    (k : nat) (a : A) :
  nth_error l k = Some a ->
  nth_error (map_from f i l) k = Some (f a (i + Z.of_nat k)).
Proof.
  revert i k. induction l as [|x l IH]; intros i k H.
  - destruct k; discriminate.
  - destruct k as [|k].
    + injection H as ->. simpl. now rewrite Z.add_0_r.
    + cbn [map_from nth_error]. cbn [nth_error] in H.
      rewrite (IH (i + 1) k H). do 2 f_equal. lia.
Qed.

Lemma map_from_agree {A B : Type} (f h : A -> Z -> B) (i : Z) (l : list A) :
  (forall a k, i <= k < i + Z.of_nat (List.length l) -> f a k = h a k) ->
  map_from f i l = map_from h i l.
Proof.
  revert i. induction l as [|x l IH]; intros i H; [reflexivity|].
  cbn [map_from]. cbn [List.length] in H. f_equal.
  - apply H. lia.
  - apply IH. intros a k Hk. apply H. lia.
Qed.

(** The block is drawn from the answers of the predicate at the indices of
    its lines, and from nothing else of the meta string. *)
Lemma Code_lines_agree (m1 m2 : option string) (lines : list (list Token)) :
  (forall k, 0 <= k < Z.of_nat (List.length lines) ->
             shouldHighlightLine m1 k = shouldHighlightLine m2 k) ->
  Code m1 lines = Code m2 lines.
Proof.
  unfold Code, Code_lines, shouldHighlightLine. intros H.
  rewrite !calculateLinesToHighlight_eq in *.
  destruct (first_group (ToString m1)), (first_group (ToString m2));
    f_equal; apply map_from_agree; intros line k Hk;
    specialize (H k ltac:(lia)); simpl in H; injection H as H;
    unfold line_element; now rewrite H.
Qed.

(** X9: the component draws one element for each line, in order.  The
    element of the line at position [k] shows the number [k + 1];
    [getLineProps] receives the line, the key [k] and the emphasis style
    exactly when a token of the first group matches the number shown,
    [false] otherwise; each token of the line is passed to [getTokenProps]
    with its position as key.  The key of an element is the one among the
    props returned for it, and its position when they hold none. *)
Theorem Code_lines_elements
    (metastring : option string) (lines : list (list Token)) :
  exists elements,
    Code_lines number_key line_props_key token_props_key
               getLineProps getTokenProps metastring lines
    = Normal elements
    /\ List.length elements = List.length lines
    /\ forall (k : nat) (line : list Token),
         nth_error lines k = Some line ->
         let number := Z.of_nat k + 1 in
         let emphasised :=
           match first_group (ToString metastring) with
           | Some g => existsb (token_test number) (tokens g)
           | None => false
           end in
         let props :=
           getLineProps
             (mkLineInput line (Z.of_nat k)
                (if emphasised then Some highlight_style else None)) in
         exists e,
           nth_error elements k = Some e
           /\ element_props e = props
           /\ element_number e = number
           /\ element_key e
              = match line_props_key props with
                | Some key => key
                | None => number_key (Z.of_nat k)
                end
           /\ List.length (element_spans e) = List.length line
           /\ forall (j : nat) (token : Token),
                nth_error line j = Some token ->
                let token_props :=
                  getTokenProps (mkTokenInput token (Z.of_nat j)) in
                nth_error (element_spans e) j
                = Some (match token_props_key token_props with
                        | Some key => key
                        | None => number_key (Z.of_nat j)
                        end, token_props).
Proof.
  unfold Code_lines. rewrite calculateLinesToHighlight_eq.
  assert (Hrow : forall (p : Z -> bool) (k : nat) (line : list Token),
    nth_error lines k = Some line ->
    let props :=
      getLineProps (mkLineInput line (Z.of_nat k)
                      (if p (Z.of_nat k) then Some highlight_style
                       else None)) in
    exists e,
      nth_error (array_map (element p) lines) k = Some e
      /\ element_props e = props
      /\ element_number e = Z.of_nat k + 1
      /\ element_key e
         = match line_props_key props with
           | Some key => key
           | None => number_key (Z.of_nat k)
           end
      /\ List.length (element_spans e) = List.length line
      /\ forall (j : nat) (token : Token),
           nth_error line j = Some token ->
           nth_error (element_spans e) j
           = Some (match token_props_key
                           (getTokenProps
                              (mkTokenInput token (Z.of_nat j))) with
                   | Some key => key
                   | None => number_key (Z.of_nat j)
                   end,
                   getTokenProps (mkTokenInput token (Z.of_nat j)))).
  { intros p k line Hk. eexists.
    split; [unfold array_map; apply (map_from_nth _ 0 _ k line Hk)|].
    cbn [Z.add]. unfold element, line_element, and_style.
    cbn [element_props element_number element_key element_spans].
    repeat split.
    - apply map_from_length.
    - intros j token Hj. unfold array_map.
      rewrite (map_from_nth _ 0 _ j token Hj). reflexivity. }
  destruct (first_group (ToString metastring)) as [g|];
    eexists; (split; [reflexivity|]);
    (split; [apply map_from_length|]);
    intros k line Hk; cbv zeta.
  - pose proof (Hrow (highlight_predicate (parse_lineNumbers g)) k line Hk)
      as H.
    cbv zeta in H.
    unfold highlight_predicate, parse_lineNumbers in H.
    rewrite existsb_map in H. exact H.
  - exact (Hrow (fun _ => false) k line Hk).
Qed.

(** X10: an annotation that names only lines past the end of the block, or
    only line 0, changes nothing: the component draws the block as it
    draws it without any annotation. *)
Theorem annotation_outside_block
    (metastring : option string) (g : string) (lines : list (list Token)) :
  first_group (ToString metastring) = Some g ->
  (forall n, In n (written_numbers g) ->
             Z.of_nat (List.length lines) < n)
  \/ (forall n, In n (written_numbers g) -> n = 0) ->
  Code_lines number_key line_props_key token_props_key
             getLineProps getTokenProps metastring lines
  = Code_lines number_key line_props_key token_props_key
               getLineProps getTokenProps None lines.
Proof.
  intros Hg Hout. apply Code_lines_agree. intros k Hk.
  rewrite (shouldHighlightLine_none None) by reflexivity.
  destruct (shouldHighlightLine metastring k) as [[|]|e] eqn:Hq.
  - exfalso.
    destruct (highlighted_line_bounds _ _ _ Hg Hq)
      as (lo & hi & Hlo & Hhi & Hle1 & Hle2).
    destruct Hout as [Hpast|Hzero].
    + specialize (Hpast lo Hlo). lia.
    + specialize (Hzero hi Hhi). lia.
  - reflexivity.
  - rewrite (shouldHighlightLine_tokens _ _ _ Hg) in Hq. discriminate.
Qed.

Lemma map_from_keys {A B : Type} (f : A -> Z -> B) (key : B -> Key)
    (i : Z) (l : list A) :
  (forall a b, number_key a = number_key b -> a = b) ->
  (forall a k, key (f a k) = number_key k) ->
  NoDup (map key (map_from f i l))
  /\ forall x, In x (map key (map_from f i l)) ->
               exists k, x = number_key k
                         /\ i <= k < i + Z.of_nat (List.length l).
Proof.
  intros Hinj Hkey. revert i.
  induction l as [|a l IH]; intros i.
  - split; [constructor | intros x []].
  - destruct (IH (i + 1)) as [Hnd Hrange].
    cbn [map_from map List.length]. rewrite Hkey. split.
    + constructor; [|exact Hnd].
      intros Hin. destruct (Hrange _ Hin) as (k & Hk & Hlt).
      apply Hinj in Hk. lia.
    + intros x [<-|Hx].
      * exists i. split; [reflexivity | lia].
      * destruct (Hrange x Hx) as (k & Hk & Hlt).
        exists k. split; [exact Hk | lia].
Qed.

(** X11: the keys are unique among siblings when the collaborators leave
    the keys alone.  If [getLineProps] and [getTokenProps] return props
    with no key, or with the key they were given, and distinct numbers
    make distinct keys, then no two line elements of a block have the same
    key, and within each line no two token elements have the same key. *)
Theorem Code_lines_keys_unique
    (metastring : option string) (lines : list (list Token))
    (elements : list (LineElement LineProps TokenProps Key)) :
  (forall a b, number_key a = number_key b -> a = b) ->
  (forall input,
     line_props_key (getLineProps input) = None
     \/ line_props_key (getLineProps input)
        = Some (number_key (input_key input))) ->
  (forall input,
     token_props_key (getTokenProps input) = None
     \/ token_props_key (getTokenProps input)
        = Some (number_key (token_key input))) ->
  Code_lines number_key line_props_key token_props_key
             getLineProps getTokenProps metastring lines
  = Normal elements ->
  NoDup (map element_key elements)
  /\ forall e, In e elements -> NoDup (map fst (element_spans e)).
Proof.
  intros Hinj Hline Htoken.
  unfold Code_lines. rewrite calculateLinesToHighlight_eq.
  assert (Hlk : forall p line k,
            element_key (element p line k) = number_key k).
  { intros p line k. unfold element, line_element, spread_key.
    cbn [element_key].
    destruct (Hline (mkLineInput line k (and_style (p k)))) as [-> | ->];
      reflexivity. }
  assert (Htk : forall token k, fst (span token k) = number_key k).
  { intros token k. unfold span, token_span, spread_key. cbn [fst].
    destruct (Htoken (mkTokenInput token k)) as [-> | ->]; reflexivity. }
  assert (Hspans : forall p i l e,
            In e (map_from (element p) i l) ->
            NoDup (map fst (element_spans e))).
  { intros p i l. revert i.
    induction l as [|line l IH]; intros i e He; [destruct He|].
    destruct He as [<-|He]; [|exact (IH _ _ He)].
    unfold element, line_element. cbn [element_spans]. unfold array_map.
    exact (proj1 (map_from_keys span fst 0 line Hinj Htk)). }
  intros H.
  destruct (first_group (ToString metastring)) as [g|];
    injection H as <-; unfold array_map; split;
    try (intros e He; exact (Hspans _ _ _ _ He)).
  - exact (proj1 (map_from_keys (element _) element_key 0 lines Hinj
                    (Hlk _))).
  - exact (proj1 (map_from_keys (element _) element_key 0 lines Hinj
                    (Hlk _))).
Qed.

End CodeLines.

Lemma annotation_outside_block_witness :
  written_numbers "7,9-12" = [7; 9; 12]
  /\ Code_lines (fun k => k) (fun p => Some (input_key p))
       (fun p => Some (token_key p)) (fun x => x) (fun x => x)
       (Some "{7,9-12}") [["a"; "b"]; ["c"]; []]
     = Code_lines (fun k => k) (fun p => Some (input_key p))
         (fun p => Some (token_key p)) (fun x => x) (fun x => x)
         None [["a"; "b"]; ["c"]; []].
Proof.
  split; [reflexivity|].
  apply (annotation_outside_block string _ _ Z (fun k => k)
           (fun p => Some (input_key p)) (fun p => Some (token_key p))
           (fun x => x) (fun x => x)
           (Some "{7,9-12}") "7,9-12" [["a"; "b"]; ["c"]; []] eq_refl).
  left. intros n [<-|[<-|[<-|[]]]]; simpl; lia.
Defined.

Lemma Code_lines_elements_witness :
  exists elements,
    Code_lines (fun k => k) (fun p => Some (input_key p))
      (fun p => Some (token_key p)) (fun x => x) (fun x => x)
      (Some "jsx {2}") [["a"; "b"]; ["c"]]
    = Normal elements
    /\ List.length elements = 2%nat.
Proof.
  destruct (Code_lines_elements string _ _ Z (fun k => k)
              (fun p => Some (input_key p)) (fun p => Some (token_key p))
              (fun x => x) (fun x => x)
              (Some "jsx {2}") [["a"; "b"]; ["c"]])
    as (elements & Hrun & Hlen & _).
  exists elements. split; [exact Hrun | exact Hlen].
Defined.

Lemma Code_lines_keys_unique_witness :
  exists elements,
    Code_lines (fun k => k) (fun p => Some (input_key p))
      (fun p => Some (token_key p)) (fun x => x) (fun x => x)
      (Some "jsx {2}") [["a"; "b"]; ["c"]]
    = Normal elements
    /\ NoDup (map element_key elements).
Proof.
  eexists. split; [reflexivity|].
  refine (proj1 (Code_lines_keys_unique string _ _ Z (fun k => k)
                   (fun p => Some (input_key p))
                   (fun p => Some (token_key p))
                   (fun x => x) (fun x => x)
                   (Some "jsx {2}") [["a"; "b"]; ["c"]] _ _ _ _ eq_refl)).
  - intros a b H. exact H.
  - intros input. right. reflexivity.
  - intros input. right. reflexivity.
Defined.
